(** * MultiModalRAG: the ingestion and retrieval pipeline

    A shallow embedding of [src/config.py], [src/document_processor.py],
    [src/vector_store.py] and [src/query_processor.py], followed by the
    properties of the pipeline that the specification states.

    Python integers are [Z], Python [str] values are lists of characters,
    dictionaries with string keys are [gmap string _], a raised exception is
    the [Raise] branch of [result], and every external collaborator (the
    embedding service, the vector index, the language model, the PDF library
    and the file system) is an oracle of the environment whose calls are
    recorded in an explicit state. *)

From Stdlib Require Import ZArith List Ascii String DecimalString Floats Lia Bool.
From stdpp Require Import base list gmap strings.
Import ListNotations.

Local Open Scope Z_scope.
Set Warnings "-inexact-float".

(** ** Python values and primitives *)

Module Py.

(** A Python [str]: a sequence of characters. *)
Definition str : Type := list ascii.

(** A string literal of the source. *)
Definition lit (s : string) : str := list_ascii_of_string s.

(** Exceptions carry their class name and [str(e)]. *)
Record exn : Type := MkExn { exn_class : string; exn_msg : str }.

Definition ValueError (msg : string) : exn := MkExn "ValueError" (lit msg).

(** The outcome of running a piece of Python: a value or a raised exception. *)
Inductive result (A : Type) : Type :=
| Ok (a : A)
| Raise (e : exn).
Arguments Ok {A} a.
Arguments Raise {A} e.

Definition bind {A B} (r : result A) (k : A -> result B) : result B :=
  match r with
  | Ok a => k a
  | Raise e => Raise e
  end.

(** [len(range(start, stop, step))] for a non-zero step. *)
Definition range_length (start stop step : Z) : Z :=
  if 0 <? step then
    if start <? stop then (stop - start - 1) / step + 1 else 0
  else
    if stop <? start then (start - stop - 1) / (- step) + 1 else 0.

(** [range(start, stop, step)]; a zero step raises [ValueError]. *)
Definition range (start stop step : Z) : result (list Z) :=
  if step =? 0 then Raise (ValueError "range() arg 3 must not be zero")
  else Ok (map (fun k : nat => start + Z.of_nat k * step)
               (seq 0 (Z.to_nat (range_length start stop step)))).

(** How a slice bound is brought into [0, len]: a negative bound counts
    from the end. *)
Definition adjust_index (len i : Z) : Z :=
  if i <? 0 then Z.max 0 (i + len) else Z.min i len.

(** [s[i:j]] on a sequence. *)
Definition slice {A} (s : list A) (i j : Z) : list A :=
  let len := Z.of_nat (length s) in
  let lo := adjust_index len i in
  let hi := adjust_index len j in
  take (Z.to_nat (hi - lo)) (drop (Z.to_nat lo) s).

(** [s[:n]]. *)
Definition prefix {A} (s : list A) (n : Z) : list A := slice s 0 n.

(** [s[n:]]. *)
Definition suffix {A} (s : list A) (n : Z) : list A :=
  slice s n (Z.of_nat (length s)).

(** [c.isspace()] for the code points below 256. *)
Definition isspace (c : ascii) : bool :=
  let n := nat_of_ascii c in
  ((9 <=? n) && (n <=? 13) || (28 <=? n) && (n <=? 32)
   || (n =? 133) || (n =? 160))%nat.

Fixpoint lstrip (s : str) : str :=
  match s with
  | [] => []
  | c :: s' => if isspace c then lstrip s' else s
  end.

Definition rstrip (s : str) : str := rev (lstrip (rev s)).

(** [s.strip()]. *)
Definition strip (s : str) : str := rstrip (lstrip s).

(** [sep.join(parts)]. *)
Fixpoint join (sep : str) (parts : list str) : str :=
  match parts with
  | [] => []
  | [p] => p
  | p :: rest => p ++ sep ++ join sep rest
  end.

(** [str(n)] for an [int]. *)
Definition str_of_int (n : Z) : str :=
  lit (DecimalString.NilZero.string_of_int (Z.to_int n)).

(** [needle in haystack] on strings. *)
Fixpoint is_prefix (p s : str) : bool :=
  match p, s with
  | [], _ => true
  | _ :: _, [] => false
  | a :: p', b :: s' => if Ascii.eqb a b then is_prefix p' s' else false
  end.

Fixpoint contains (needle haystack : str) : bool :=
  match haystack with
  | [] => is_prefix needle []
  | _ :: rest => is_prefix needle haystack || contains needle rest
  end.

(** [c.lower()] for the code points below 256. *)
Definition lower_char (c : ascii) : ascii :=
  let n := nat_of_ascii c in
  if ((65 <=? n) && (n <=? 90)
      || (192 <=? n) && (n <=? 222) && negb (n =? 215))%nat
  then ascii_of_nat (n + 32) else c.

Definition lower (s : str) : str := map lower_char s.

(** The values a metadata dictionary holds. *)
Inductive value : Type :=
| VNone
| VBool (b : bool)
| VInt (n : Z)
| VStr (s : str).

(** [bool(v)]. *)
Definition truthy (v : value) : bool :=
  match v with
  | VNone => false
  | VBool b => b
  | VInt n => negb (n =? 0)
  | VStr s => negb (Nat.eqb (length s) 0)
  end.

(** [str(v)], as an f-string renders it. *)
Definition str_of_value (v : value) : str :=
  match v with
  | VNone => lit "None"
  | VBool true => lit "True"
  | VBool false => lit "False"
  | VInt n => str_of_int n
  | VStr s => s
  end.

End Py.

Import Py.

Notation "'let*' x ':=' r 'in' k" := (Py.bind r (fun x => k))
  (at level 10, x name, r at level 100, k at level 200, only parsing).

(** ** [config.py] *)

Module Config.

(** The settings of class [Config] that the pipeline reads. *)
Record t : Type := Make {
  GEMINI_EMBEDDING_DIM : Z;
  CHUNK_SIZE : Z;
  CHUNK_OVERLAP : Z;
  IMAGES_DIR : str
}.

(** The values the class is defined with. *)
Definition default : t := {|
  GEMINI_EMBEDDING_DIM := 768;
  CHUNK_SIZE := 1000;
  CHUNK_OVERLAP := 200;
  IMAGES_DIR := lit "data/images"
|}.

(** The name of the index, a constant of the class. *)
Definition INDEX_NAME : str := lit "multimodal-rag-index".

End Config.


(** ** The external collaborators *)

(** [google.generativeai]: what a [generate_content] call carries. *)
Module Gemini.

Inductive part : Type :=
| Text (text : str)
| InlineData (mime_type data : str).

Record turn : Type := Turn { role : str; parts : list part }.

(** The [contents] argument: a list of parts, one role-tagged turn, or a
    list of turns. *)
Inductive contents : Type :=
| Parts (ps : list part)
| Single (t : turn)
| Conversation (ts : list turn).

Record generation_config : Type := GenerationConfig {
  temperature : float;
  max_output_tokens : Z;
  top_p : option float;
  top_k : option Z
}.

Record request : Type := Request {
  req_contents : contents;
  req_config : generation_config
}.

(** The turns a request puts before the model, in order. *)
Definition turns (c : contents) : list turn :=
  match c with
  | Parts ps => [Turn (lit "user") ps]
  | Single t => [t]
  | Conversation ts => ts
  end.

End Gemini.

(** [pinecone]: the records of the index. *)
Module Pinecone.

Record vector : Type := Vector {
  id : str;
  values : list float;
  metadata : gmap string value
}.

Record query_request : Type := Query {
  q_vector : list float;
  q_top_k : Z;
  q_filter : option (gmap string value);
  q_include_metadata : bool
}.

(** One element of [results.matches]. *)
Record scored_vector : Type := Match {
  m_id : str;
  m_score : float;
  m_metadata : option (gmap string value)
}.

End Pinecone.

(** The state the program acts on, and the environment that answers it. *)
Module World.

Definition bytes : Type := list Byte.byte.

Record State : Type := MkState {
  files : gmap str bytes;                       (* the file system *)
  rng_draws : nat;                              (* calls of random.random() so far *)
  model_calls : list Gemini.request;            (* generate_content calls *)
  embed_calls : list str;                       (* genai.embed_content calls *)
  upsert_calls : list (list Pinecone.vector);   (* index.upsert calls *)
  query_calls : list Pinecone.query_request     (* index.query calls *)
}.

Definition initial : State := MkState ∅ 0 [] [] [] [].

Definition set_files (f : gmap str bytes -> gmap str bytes) (s : State) : State :=
  MkState (f (files s)) (rng_draws s) (model_calls s) (embed_calls s)
          (upsert_calls s) (query_calls s).

Definition log_draw (s : State) : State :=
  MkState (files s) (S (rng_draws s)) (model_calls s) (embed_calls s)
          (upsert_calls s) (query_calls s).

Definition log_model_call (r : Gemini.request) (s : State) : State :=
  MkState (files s) (rng_draws s) (model_calls s ++ [r]) (embed_calls s)
          (upsert_calls s) (query_calls s).

Definition log_embed_call (t : str) (s : State) : State :=
  MkState (files s) (rng_draws s) (model_calls s) (embed_calls s ++ [t])
          (upsert_calls s) (query_calls s).

Definition log_upsert_call (vs : list Pinecone.vector) (s : State) : State :=
  MkState (files s) (rng_draws s) (model_calls s) (embed_calls s)
          (upsert_calls s ++ [vs]) (query_calls s).

Definition log_query_call (q : Pinecone.query_request) (s : State) : State :=
  MkState (files s) (rng_draws s) (model_calls s) (embed_calls s)
          (upsert_calls s) (query_calls s ++ [q]).

(** What can happen to [open(path, "wb")] followed by [write]. *)
Inductive write_outcome : Type :=
| OpenRaises (e : exn)
| WriteRaises (e : exn)
| Written.

(** The answers of the outside world. Each oracle sees the state, and so
    the history of calls, at the moment it is asked. *)
Record Env : Type := MkEnv {
  (* genai.embed_content: the response dictionary, or an exception *)
  embed_content : State -> str -> result (gmap string (list float));
  (* the k-th value of random.random() *)
  random_random : nat -> float;
  (* page.parent.extract_image(xref)["image"] *)
  extract_image : State -> Z -> result bytes;
  (* the fate of writing a file *)
  file_write : State -> str -> bytes -> write_outcome;
  (* PIL: open, convert to RGB, downscale, save as JPEG; then base64 *)
  encode_jpeg : State -> bytes -> result str
}.

(** A [genai.GenerativeModel] handle: the [text] of the response it gives
    to a request, or the exception it raises. *)
Record GenerativeModel : Type := MkModel {
  respond : State -> Gemini.request -> result str
}.

(** A [pinecone.Index] handle. *)
Record Index : Type := MkIndex {
  upsert_reply : State -> list Pinecone.vector -> option exn;
  query_reply : State -> Pinecone.query_request -> result (list Pinecone.scored_vector)
}.

(** A computation: it reads and changes the state, and returns or raises. *)
Definition M (A : Type) : Type := State -> result A * State.

Definition ret {A} (a : A) : M A := fun s => (Ok a, s).

Definition raise {A} (e : exn) : M A := fun s => (Raise e, s).

Definition mbind {A B} (m : M A) (k : A -> M B) : M B :=
  fun s => match m s with
           | (Ok a, s') => k a s'
           | (Raise e, s') => (Raise e, s')
           end.

(** [try: body except Exception as e: handler]. *)
Definition try_except {A} (body : M A) (handler : exn -> M A) : M A :=
  fun s => match body s with
           | (Ok a, s') => (Ok a, s')
           | (Raise e, s') => handler e s'
           end.

Definition lift {A} (r : result A) : M A := fun s => (r, s).

(** [random.random()]. *)
Definition random (env : Env) : M float :=
  fun s => (Ok (random_random env (rng_draws s)), log_draw s).

(** [with open(path, "wb") as f: f.write(data)]. *)
Definition write_binary (env : Env) (path : str) (data : bytes) : M unit :=
  fun s => match file_write env s path data with
           | OpenRaises e => (Raise e, s)
           | WriteRaises e => (Raise e, set_files (insert path []) s)
           | Written => (Ok tt, set_files (insert path data) s)
           end.

(** The exception for a path that names no file; [str(e)] is the message of
    the operating system followed by the path between quotes. *)
Definition FileNotFoundError (path : str) : exn :=
  MkExn "FileNotFoundError"
    (lit "[Errno 2] No such file or directory: '" ++ path ++ lit "'").

(** Reading a file back. *)
Definition read_binary (path : str) : M bytes :=
  fun s => match files s !! path with
           | Some data => (Ok data, s)
           | None => (Raise (FileNotFoundError path), s)
           end.

(** [os.remove(path)]. *)
Definition os_remove (path : str) : M unit :=
  fun s => match files s !! path with
           | Some _ => (Ok tt, set_files (delete path) s)
           | None => (Raise (FileNotFoundError path), s)
           end.

(** [model.generate_content(contents=..., generation_config=...)], read
    through [response.text]. *)
Definition generate_content (model : GenerativeModel)
    (contents : Gemini.contents) (config : Gemini.generation_config) : M str :=
  fun s => let r := Gemini.Request contents config in
           (respond model s r, log_model_call r s).

(** [genai.embed_content(model=..., content=text, task_type=...)]. *)
Definition genai_embed_content (env : Env) (text : str)
    : M (gmap string (list float)) :=
  fun s => (embed_content env s text, log_embed_call text s).

(** [index.upsert(vectors=vs)]. *)
Definition index_upsert (index : Index) (vs : list Pinecone.vector) : M unit :=
  fun s => match upsert_reply index s vs with
           | Some e => (Raise e, log_upsert_call vs s)
           | None => (Ok tt, log_upsert_call vs s)
           end.

(** [index.query(vector=..., top_k=..., filter=..., include_metadata=True)],
    read through [results.matches]. *)
Definition index_query (index : Index) (q : Pinecone.query_request)
    : M (list Pinecone.scored_vector) :=
  fun s => (query_reply index s q, log_query_call q s).

End World.

Import World.

Notation "'do*' x ':=' m 'in' k" := (World.mbind m (fun x => k))
  (at level 10, x name, m at level 100, k at level 200, only parsing).

(** ** [document_processor.py] *)

Module Page.
(** A processed page. [image_descriptions] is read with [page.get], so the
    key may be absent. *)
Record t : Type := Make {
  page_number : Z;
  text : str;
  image_descriptions : option (list str);
  full_content : str
}.
End Page.

Module Chunk.
Record t : Type := Make {
  chunk_id : Z;
  page_number : Z;
  content : str;
  has_images : bool
}.
End Chunk.

Module DocumentProcessor.

Record t : Type := Make {
  config : Config.t;
  gemini_model : option GenerativeModel
}.

(** A page of the opened PDF: its text and the xrefs of its images. *)
Record PdfPage : Type := MkPdfPage {
  get_text : str;
  get_images : list Z
}.

Definition nl : str := ["010"%char].

(** [os.path.join(dir, name)] for a relative [name]. *)
Definition path_join (dir name : str) : str :=
  match rev dir with
  | [] => name
  | c :: _ => if Ascii.eqb c "/"%char then dir ++ name
              else dir ++ lit "/" ++ name
  end.

Definition description_prompt : str := lit "
            Please analyze this image in detail and provide a comprehensive description that includes:
            1. Any visible text (transcribe it exactly as shown)
            2. A description of any charts, graphs, or diagrams
            3. The overall purpose and content of the image
            4. Any important details that would be relevant for search and retrieval
            
            Be thorough and precise in your description.
            ".

(** [_get_image_description]. Printing is not modelled. *)
Definition _get_image_description (env : Env) (self : t) (image_path : str)
    : M str :=
  match gemini_model self with
  | None => ret (lit "[Image processing not available]")
  | Some model =>
    try_except
      (do* img := read_binary image_path in
       do* data := (fun s => (encode_jpeg env s img, s)) in
       let message := Gemini.Parts
         [Gemini.Text description_prompt;
          Gemini.InlineData (lit "image/jpeg") data] in
       do* response_text := generate_content model message
         (Gemini.GenerationConfig 0.2 2048 None None) in
       if Nat.eqb (length response_text) 0
       then raise (ValueError "Empty response from Gemini model")
       else ret (strip response_text))
      (fun e => ret (lit "[Image description error: " ++ exn_msg e ++ lit "]"))
  end.

(** Where the image [img_index] of page [page_num] is saved. *)
Definition image_path_for (self : t) (page_num img_index : Z) : str :=
  path_join (Config.IMAGES_DIR (config self))
    (lit "page_" ++ str_of_int (page_num + 1) ++ lit "_img_"
     ++ str_of_int (img_index + 1) ++ lit ".png").

(** One iteration of the loop of [_extract_and_describe_images]: the
    [try] body for image [img_index]; any exception skips to the next
    image with the descriptions gathered so far. *)
Definition describe_image (env : Env) (self : t) (page_num : Z)
    (descriptions : list str) (img_index : Z) (xref : Z) : M (list str) :=
  try_except
    (do* image_bytes := (fun s => (extract_image env s xref, s)) in
     let image_path := image_path_for self page_num img_index in
     do* _ := write_binary env image_path image_bytes in
     do* description := _get_image_description env self image_path in
     let descriptions := descriptions ++ [description] in
     (* the description is already appended when the removal runs *)
     try_except
       (do* _ := os_remove image_path in ret descriptions)
       (fun _ => ret descriptions))
    (fun _ => ret descriptions).

Fixpoint describe_images (env : Env) (self : t) (page_num : Z)
    (descriptions : list str) (img_index : Z) (image_list : list Z)
    : M (list str) :=
  match image_list with
  | [] => ret descriptions
  | xref :: rest =>
    do* descriptions := describe_image env self page_num descriptions img_index xref in
    describe_images env self page_num descriptions (img_index + 1) rest
  end.

(** [_extract_and_describe_images]. *)
Definition _extract_and_describe_images (env : Env) (self : t)
    (page : PdfPage) (page_num : Z) : M (list str) :=
  match get_images page with
  | [] => ret []
  | image_list => describe_images env self page_num [] 0 image_list
  end.

(** The body of the loop of [process_pdf] for one page. *)
Definition process_page (env : Env) (self : t) (page_num : Z) (page : PdfPage)
    : M Page.t :=
  let text := get_text page in
  do* image_descriptions := _extract_and_describe_images env self page page_num in
  let full_content := lit "Page " ++ str_of_int (page_num + 1) ++ nl ++ nl ++ text in
  let full_content :=
    match image_descriptions with
    | [] => full_content
    | _ => full_content ++ (nl ++ nl ++ lit "Visual Content:" ++ nl)
                        ++ join nl image_descriptions
    end in
  ret (Page.Make (page_num + 1) text (Some image_descriptions) full_content).

Fixpoint process_pages (env : Env) (self : t) (page_num : Z)
    (pages : list PdfPage) (processed_pages : list Page.t) : M (list Page.t) :=
  match pages with
  | [] => ret processed_pages
  | page :: rest =>
    do* page_content := process_page env self page_num page in
    process_pages env self (page_num + 1) rest (processed_pages ++ [page_content])
  end.

(** [process_pdf], on the pages [_extract_pages] loaded. *)
Definition process_pdf (env : Env) (self : t) (pages : list PdfPage)
    : M (list Page.t) :=
  process_pages env self 0 pages [].

(** The body of the inner loop of [chunk_document]: the chunk that starts
    at offset [i]. *)
Definition append_chunk (self : t) (page : Page.t)
    (st : list Chunk.t * Z) (i : Z) : list Chunk.t * Z :=
  let '(chunks, chunk_id) := st in
  let text := Page.full_content page in
  let chunk := slice text i (i + Config.CHUNK_SIZE (config self)) in
  (chunks ++ [Chunk.Make chunk_id (Page.page_number page) chunk
                (0 <? Z.of_nat (length (default [] (Page.image_descriptions page))))],
   chunk_id + 1).

(** The inner loop of [chunk_document], for one page. *)
Definition chunk_page (self : t) (st : list Chunk.t * Z) (page : Page.t)
    : result (list Chunk.t * Z) :=
  let text := Page.full_content page in
  let* starts := range 0 (Z.of_nat (length text))
      (Config.CHUNK_SIZE (config self) - Config.CHUNK_OVERLAP (config self)) in
  Ok (fold_left (append_chunk self page) starts st).

Fixpoint chunk_pages (self : t) (st : list Chunk.t * Z) (pages : list Page.t)
    : result (list Chunk.t * Z) :=
  match pages with
  | [] => Ok st
  | page :: rest =>
    let* st := chunk_page self st page in
    chunk_pages self st rest
  end.

(** [chunk_document]. *)
Definition chunk_document (self : t) (processed_pages : list Page.t)
    : result (list Chunk.t) :=
  let* st := chunk_pages self ([], 0) processed_pages in
  Ok (fst st).

End DocumentProcessor.

(** ** [vector_store.py] *)

Module SearchResult.
Record t : Type := Make {
  id : str;
  score : float;
  metadata : gmap string value;
  content : value
}.
End SearchResult.

Module VectorStore.

Record t : Type := Make {
  config : Config.t;
  index : Index
}.

(** [[random.random() for _ in range(n)]], over the indices of the range. *)
Fixpoint random_list (env : Env) (indices : list Z) : M (list float) :=
  match indices with
  | [] => ret []
  | _ :: rest =>
    do* x := random env in
    do* xs := random_list env rest in
    ret (x :: xs)
  end.

(** [get_embedding]. Printing is not modelled. *)
Definition get_embedding (env : Env) (self : t) (text : str) : M (list float) :=
  try_except
    (let text := if 10000 <? Z.of_nat (length text) then prefix text 10000 else text in
     do* result := genai_embed_content env text in
     match result !! "embedding" with
     | Some embedding => ret embedding
     | None => raise (ValueError "No embedding found in the response")
     end)
    (fun _ =>
       do* indices := lift (range 0 (Config.GEMINI_EMBEDDING_DIM (config self)) 1) in
       random_list env indices).

(** The vector record built for a chunk. A chunk always carries
    [has_images], so the default of [doc.get] is not used. *)
Definition vector_of (doc : Chunk.t) (embedding : list float) : Pinecone.vector :=
  Pinecone.Vector
    (str_of_int (Chunk.chunk_id doc))
    embedding
    {[ "page_number" := VInt (Chunk.page_number doc);
       "has_images" := VBool (Chunk.has_images doc);
       "content" := VStr (prefix (Chunk.content doc) 500) ]}.

(** The body of the loop of [upsert_documents]. *)
Definition upsert_step (env : Env) (self : t) (batch_size : Z)
    (vectors : list Pinecone.vector) (doc : Chunk.t) : M (list Pinecone.vector) :=
  do* embedding := get_embedding env self (Chunk.content doc) in
  let vector := vector_of doc embedding in
  let vectors := vectors ++ [vector] in
  if batch_size <=? Z.of_nat (length vectors)
  then do* _ := index_upsert (index self) vectors in ret []
  else ret vectors.

Fixpoint upsert_loop (env : Env) (self : t) (batch_size : Z)
    (vectors : list Pinecone.vector) (documents : list Chunk.t)
    : M (list Pinecone.vector) :=
  match documents with
  | [] => ret vectors
  | doc :: rest =>
    do* vectors := upsert_step env self batch_size vectors doc in
    upsert_loop env self batch_size vectors rest
  end.

(** [upsert_documents]. *)
Definition upsert_documents (env : Env) (self : t)
    (documents : list Chunk.t) (batch_size : Z) : M unit :=
  do* vectors := upsert_loop env self batch_size [] documents in
  match vectors with
  | [] => ret tt
  | _ => index_upsert (index self) vectors
  end.

(** How [search] renders one match. *)
Definition format_match (m : Pinecone.scored_vector) : SearchResult.t :=
  (* [match.metadata or {}]: an absent dictionary reads as the empty one *)
  let metadata := default ∅ (Pinecone.m_metadata m) in
  SearchResult.Make (Pinecone.m_id m) (Pinecone.m_score m) metadata
    (default (VStr []) (metadata !! "content")).

(** [search]. *)
Definition search (env : Env) (self : t) (query : str) (top_k : Z)
    (filter_conditions : option (gmap string value)) : M (list SearchResult.t) :=
  do* query_embedding := get_embedding env self query in
  try_except
    (do* matches := index_query (index self)
       (Pinecone.Query query_embedding top_k filter_conditions true) in
     ret (map format_match matches))
    (fun _ => ret []).

End VectorStore.

(** ** [query_processor.py] *)

Module Source.
Record t : Type := Make {
  page : value;
  content : str;
  has_images : value
}.
End Source.

Module Response.
(** The dictionary [generate_response] returns; [context] is [None] when
    the dictionary has no such key. *)
Record t : Type := Make {
  answer : str;
  sources : list Source.t;
  context : option (list str)
}.
End Response.

Module Message.
Record t : Type := Make { role : str; content : str }.
End Message.

Module QueryProcessor.

Record t : Type := Make {
  vector_store : VectorStore.t;
  gemini_model : option GenerativeModel;
  config : Config.t
}.

(** What the constructor finds: the keys read from the environment when
    [Config] was defined, and the answers of the client libraries. *)
Record Startup : Type := MkStartup {
  OPENAI_API_KEY : option str;
  GEMINI_API_KEY : option str;
  (* OpenAI(api_key=...) *)
  OpenAI : option str -> option exn;
  (* genai.configure(api_key=...) *)
  genai_configure : option str -> option exn;
  (* genai.GenerativeModel(name) *)
  genai_GenerativeModel : str -> result GenerativeModel
}.

Definition GEMINI_MODEL : str := lit "gemini-1.5-flash".

(** A call made for its effect: it raises or it does not. *)
Definition check (outcome : option exn) : result unit :=
  match outcome with
  | Some e => Raise e
  | None => Ok tt
  end.

(** [not key] for a key read with [os.getenv]. *)
Definition key_missing (key : option str) : bool :=
  match key with
  | None => true
  | Some k => Nat.eqb (length k) 0
  end.

(** [__init__]: the object built, or the exception that leaves the
    constructor. The handler around [GenerativeModel] prints and raises
    again; the OpenAI client is stored and not used afterwards. A model
    object is true in a test, so the attribute it is stored in passes
    [not self.gemini_model] as [Some] does. *)
Definition __init__ (startup : Startup) (config : Config.t) (vector_store : VectorStore.t)
    : result t :=
  let* _ := check (OpenAI startup (OPENAI_API_KEY startup)) in
  if key_missing (GEMINI_API_KEY startup)
  then Raise (ValueError "GEMINI_API_KEY not found in environment variables")
  else
    let* _ := check (genai_configure startup (GEMINI_API_KEY startup)) in
    let* gemini_model := genai_GenerativeModel startup GEMINI_MODEL in
    Ok (Make vector_store (Some gemini_model) config).

Definition nl : str := ["010"%char].

Definition system_instruction : str := lit "You are a helpful assistant that answers questions based on the provided context. 
                If the context doesn't contain the answer, say you don't know. 
                Be concise and accurate in your responses.".

Definition vision_instruction : str := lit " When describing visual content, be sure to include details from the image descriptions provided in the context.".

Definition user_prompt (context query : str) : str :=
  lit "Context:
                " ++ context ++ lit "
                
                Question: " ++ query ++ lit "
                
                Answer the question based on the context above. If the context doesn't contain the answer, say you don't know.".

(** [type(v).__name__]. *)
Definition type_name (v : value) : str :=
  match v with
  | VNone => lit "NoneType"
  | VBool _ => lit "bool"
  | VInt _ => lit "int"
  | VStr _ => lit "str"
  end.

(** [content[:500] + '...']; only a string can be sliced. *)
Definition preview (content : value) : result str :=
  match content with
  | VStr s => Ok (prefix s 500 ++ lit "...")
  | _ => Raise (MkExn "TypeError"
                  (lit "'" ++ type_name content ++ lit "' object is not subscriptable"))
  end.

(** The loop that labels the results and collects the sources. *)
Fixpoint format_context (i : Z) (search_results : list SearchResult.t)
    (context_parts : list str) (sources : list Source.t)
    : result (list str * list Source.t) :=
  match search_results with
  | [] => Ok (context_parts, sources)
  | result :: rest =>
    let page := default (VStr (lit "N/A"))
                  (SearchResult.metadata result !! "page_number") in
    let source_info := lit "[Source " ++ str_of_int (i + 1) ++ lit ", Page "
                       ++ str_of_value page ++ lit "]" in
    let context_parts := context_parts
          ++ [source_info ++ nl ++ str_of_value (SearchResult.content result)] in
    let* content := preview (SearchResult.content result) in
    let sources := sources
          ++ [Source.Make page content
                (default (VBool false) (SearchResult.metadata result !! "has_images"))] in
    format_context (i + 1) rest context_parts sources
  end.

(** [next((msg for msg in messages if msg['role'] == role), None)]. *)
Definition find_role (role : str) (messages : list Message.t) : option Message.t :=
  find (fun msg => bool_decide (Message.role msg = role)) messages.

(** The turns gathered in [formatted_messages]. *)
Definition formatted_messages (messages : list Message.t) : list Gemini.turn :=
  let system_turns :=
    match find_role (lit "system") messages with
    | Some system_message =>
      [Gemini.Turn (lit "user") [Gemini.Text (Message.content system_message)];
       Gemini.Turn (lit "model")
         [Gemini.Text (lit "I understand and will assist with your request.")]]
    | None => []
    end in
  let user_turns :=
    match find_role (lit "user") messages with
    | Some user_message =>
      [Gemini.Turn (lit "user") [Gemini.Text (Message.content user_message)]]
    | None => []
    end in
  system_turns ++ user_turns.

(** The [contents] argument the call to the model is given. *)
Definition sent_contents (user_message : Message.t) : Gemini.contents :=
  Gemini.Single (Gemini.Turn (lit "user") [Gemini.Text (Message.content user_message)]).

(** The [try] block around the model call. *)
Definition ask_model (model : GenerativeModel) (messages : list Message.t) : M str :=
  let formatted_messages := formatted_messages messages in
  match find_role (lit "user") messages with
  | None => raise (MkExn "TypeError" (lit "'NoneType' object is not subscriptable"))
  | Some user_message =>
    do* response_text := generate_content model (sent_contents user_message)
      (Gemini.GenerationConfig 0.3 2048 (Some 0.95%float) (Some 40)) in
    if Nat.eqb (length response_text) 0
    then raise (ValueError "Empty response from Gemini model")
    else ret (strip response_text)
  end.

(** The [except] block: the answer chosen from the error text. *)
Definition error_answer (e : exn) : str :=
  let error_msg := lower (exn_msg e) in
  if contains (lit "quota") error_msg then
    lit "I've reached my API quota limit. Please check your Google AI Studio account for usage limits."
  else if contains (lit "access") error_msg || contains (lit "permission") error_msg then
    lit "I'm having trouble accessing the AI model. Please verify your API key and permissions."
  else
    lit "I'm sorry, I encountered an error while generating a response. The error was: "
    ++ exn_msg e.

(** The two messages, with the vision instruction added to the first when
    asked for and a source has images. *)
Definition build_messages (context query : str) (use_vision : bool)
    (sources : list Source.t) : list Message.t :=
  let system_content :=
    if use_vision && existsb (fun src => truthy (Source.has_images src)) sources
    then system_instruction ++ vision_instruction
    else system_instruction in
  [Message.Make (lit "system") system_content;
   Message.Make (lit "user") (user_prompt context query)].

(** [generate_response]. *)
Definition generate_response (env : Env) (self : t) (query : str)
    (use_vision : bool) : M Response.t :=
  do* search_results := VectorStore.search env (vector_store self) query 3 None in
  match search_results with
  | [] =>
    ret (Response.Make
           (lit "I couldn't find any relevant information to answer your question.")
           [] (Some []))
  | _ =>
    do* formatted := lift (format_context 0 search_results [] []) in
    let '(context_parts, sources) := formatted in
    let context := join (nl ++ nl) context_parts in
    let messages := build_messages context query use_vision sources in
    match gemini_model self with
    | None =>
      ret (Response.Make
             (lit "Error: Gemini model is not available. Please check your API key and model configuration.")
             sources None)
    | Some model =>
      do* answer := try_except (ask_model model messages)
                               (fun e => ret (error_answer e)) in
      ret (Response.Make answer sources (Some context_parts))
    end
  end.

(** The body of the loop of [format_response]: the lines of source [i]. *)
Definition format_source (formatted : str) (i : Z) (source : Source.t) : str :=
  let formatted := formatted ++ (nl ++ lit "[" ++ str_of_int i ++ lit "] Page "
                                 ++ str_of_value (Source.page source) ++ nl) in
  let formatted := formatted ++ (Source.content source ++ nl) in
  if truthy (Source.has_images source)
  then formatted ++ (lit "(Contains visual content)" ++ nl)
  else formatted.

Fixpoint format_sources (formatted : str) (i : Z) (sources : list Source.t) : str :=
  match sources with
  | [] => formatted
  | source :: rest => format_sources (format_source formatted i source) (i + 1) rest
  end.

(** [format_response]. *)
Definition format_response (response : Response.t) : str :=
  let formatted := Response.answer response ++ nl ++ nl in
  match Response.sources response with
  | [] => formatted
  | sources => format_sources (formatted ++ (nl ++ lit "Sources:" ++ nl)) 1 sources
  end.

End QueryProcessor.

(** ** [vector_store.py]: the life of the index *)

(** The methods of [VectorStore] that create, reuse and empty the index.
    They talk to the Pinecone client and to the index handle only, so their
    state is the sequence of calls made to these. *)
Module IndexLifecycle.

Inductive call : Type :=
| ListIndexes
| DescribeIndex (name : str)
| DeleteIndex (name : str)
| CreateIndex (name : str) (dimension : Z) (metric cloud region : str)
| Sleep (seconds : Z)
| OpenIndex (name : str)
| DescribeIndexStats
| DeleteAll.

(** What [describe_index] tells: the dimension, when the description has
    one, and [status.ready]. *)
Record description : Type := Description {
  dimension : option Z;
  ready : bool
}.

(** The answers of the service, each given the calls made so far. *)
Record Client : Type := MkClient {
  list_indexes_reply : list call -> result (list str);
  describe_index_reply : list call -> str -> result description;
  delete_index_reply : list call -> str -> option exn;
  create_index_reply : list call -> str -> Z -> option exn;
  open_index_reply : list call -> str -> option exn;
  describe_index_stats_reply : list call -> result Z;
  delete_all_reply : list call -> option exn
}.

(** A computation over the calls made so far; [None] when the waiting loop
    was cut short by the bound put on it. *)
Definition P (A : Type) : Type := list call -> option (result A * list call).

Definition pret {A} (a : A) : P A := fun l => Some (Ok a, l).

Definition pbind {A B} (m : P A) (k : A -> P B) : P B :=
  fun l => match m l with
           | Some (Ok a, l') => k a l'
           | Some (Raise e, l') => Some (Raise e, l')
           | None => None
           end.

(** A call that returns a value or raises. *)
Definition ask {A} (c : call) (reply : list call -> result A) : P A :=
  fun l => Some (reply l, l ++ [c]).

(** A call made for its effect. *)
Definition tell (c : call) (reply : list call -> option exn) : P unit :=
  fun l => match reply l with
           | Some e => Some (Raise e, l ++ [c])
           | None => Some (Ok tt, l ++ [c])
           end.

(** [names.remove(name)]: the first occurrence goes. *)
Fixpoint remove_first (name : str) (names : list str) : list str :=
  match names with
  | [] => []
  | n :: rest => if bool_decide (n = name) then rest else n :: remove_first name rest
  end.

(** [while not describe_index(name).status.ready: time.sleep(1)], for at
    most [fuel] looks at the status. *)
Fixpoint wait_until_ready (client : Client) (index_name : str) (fuel : nat) : P unit :=
  match fuel with
  | O => fun _ => None
  | S fuel =>
    pbind (ask (DescribeIndex index_name)
               (fun l => describe_index_reply client l index_name))
      (fun info =>
         if ready info then pret tt
         else pbind (ask (Sleep 1) (fun _ => Ok tt))
                    (fun _ => wait_until_ready client index_name fuel))
  end.

(** [_get_or_create_index]; its handler prints and raises again, so an
    exception leaves as it came. The handle returned is the name of the
    index it was opened on. *)
Definition _get_or_create_index (client : Client) (config : Config.t) (fuel : nat)
    : P str :=
  let index_name := Config.INDEX_NAME in
  pbind (ask ListIndexes (list_indexes_reply client)) (fun index_names =>
  pbind (if bool_decide (index_name ∈ index_names)
         then
           pbind (ask (DescribeIndex index_name)
                      (fun l => describe_index_reply client l index_name))
             (fun index_info =>
                match dimension index_info with
                | Some d =>
                  if negb (d =? Config.GEMINI_EMBEDDING_DIM config)
                  then pbind (tell (DeleteIndex index_name)
                                   (fun l => delete_index_reply client l index_name))
                         (fun _ => pret (remove_first index_name index_names))
                  else pret index_names
                | None => pret index_names
                end)
         else pret index_names) (fun index_names =>
  pbind (if bool_decide (index_name ∈ index_names)
         then pret tt
         else
           pbind (tell (CreateIndex index_name (Config.GEMINI_EMBEDDING_DIM config)
                          (lit "cosine") (lit "aws") (lit "us-east-1"))
                       (fun l => create_index_reply client l index_name
                                   (Config.GEMINI_EMBEDDING_DIM config)))
             (fun _ => wait_until_ready client index_name fuel)) (fun _ =>
  pbind (tell (OpenIndex index_name)
               (fun l => open_index_reply client l index_name)) (fun _ =>
  pret index_name)))).

(** [delete_all_vectors]: whatever is raised is printed and dropped. *)
Definition delete_all_vectors (client : Client) : P unit :=
  fun l =>
    match pbind (ask DescribeIndexStats (describe_index_stats_reply client))
            (fun total_vectors =>
               if 0 <? total_vectors
               then tell DeleteAll (delete_all_reply client)
               else pret tt) l with
    | Some (Raise _, l') => Some (Ok tt, l')
    | other => other
    end.

End IndexLifecycle.

(** ** [main.py] *)

Module Main.

(** [process_document], on the components it builds and the pages
    [_extract_pages] loads from the file. *)
Definition process_document (env : Env) (doc_processor : DocumentProcessor.t)
    (vector_store : VectorStore.t) (pages : list DocumentProcessor.PdfPage) : M unit :=
  do* processed_pages := DocumentProcessor.process_pdf env doc_processor pages in
  do* chunks := lift (DocumentProcessor.chunk_document doc_processor processed_pages) in
  VectorStore.upsert_documents env vector_store chunks 100.

End Main.

(** ** The vocabulary of the specification *)

(** Ceiling division, for a positive divisor. *)
Definition ceil_div (a b : Z) : Z := (a + b - 1) / b.

(** The number of chunks the specification gives for a page of length [L]:
    [ceil((L - O) / (C - O))], or 1 if [L <= C]. *)
Definition specified_chunk_count (C O L : Z) : Z :=
  if L <=? C then 1 else ceil_div (L - O) (C - O).

(** The chunk contents with the overlaps removed: the first [O] characters
    are taken off every chunk except the first. *)
Definition remove_overlaps (O : Z) (contents : list str) : list str :=
  match contents with
  | [] => []
  | first :: others => first :: map (fun c => suffix c O) others
  end.

(** The descriptions of a page, as [chunk_document] reads them. *)
Definition descriptions_of (page : Page.t) : list str :=
  default [] (Page.image_descriptions page).

(** The chunk [chunk_document] builds as the [k]-th of a page, at offset
    [i], when the page's first chunk has id [chunk_id]. *)
Definition chunk_at (self : DocumentProcessor.t) (page : Page.t)
    (chunk_id : Z) (k : nat) (i : Z) : Chunk.t :=
  Chunk.Make (chunk_id + Z.of_nat k) (Page.page_number page)
    (slice (Page.full_content page) i
       (i + Config.CHUNK_SIZE (DocumentProcessor.config self)))
    (0 <? Z.of_nat (length (descriptions_of page))).

(** The offsets at which the chunks of a text of length [len] start. *)
Definition chunk_starts (self : DocumentProcessor.t) (len : nat) : list Z :=
  let step := Config.CHUNK_SIZE (DocumentProcessor.config self)
              - Config.CHUNK_OVERLAP (DocumentProcessor.config self) in
  map (fun k : nat => 0 + Z.of_nat k * step)
      (seq 0 (Z.to_nat (range_length 0 (Z.of_nat len) step))).

(** The reading of C3 as it is worded: the flag of a chunk is set exactly
    when its page has a description that is not the empty string. *)
Definition flag_means_nonempty_description (page : Page.t) (c : Chunk.t) : Prop :=
  Chunk.has_images c = true <-> exists d, In d (descriptions_of page) /\ d <> [].

(** The state after [n] more values were drawn from [random.random()]. *)
Definition after_draws (n : nat) (s : State) : State :=
  MkState (files s) (rng_draws s + n) (model_calls s) (embed_calls s)
          (upsert_calls s) (query_calls s).

(** The text [get_embedding] sends to the embedding service. *)
Definition text_sent (text : str) : str :=
  if 10000 <? Z.of_nat (length text) then prefix text 10000 else text.

(** The embedding service fails on a text: the call raises, or its response
    has no embedding. *)
Definition embedding_service_fails (env : Env) (s : State) (text : str) : Prop :=
  match embed_content env s (text_sent text) with
  | Ok result => result !! "embedding" = None
  | Raise _ => True
  end.

(** The next [n] values of [random.random()] in state [s]. *)
Definition next_draws (env : Env) (s : State) (n : nat) : list float :=
  map (random_random env) (seq (rng_draws s) n).

(** The similarity query of a search fails: the index raises on the query
    made with the vector the embedding step handed over. *)
Definition index_query_fails (env : Env) (self : VectorStore.t) (query : str)
    (top_k : Z) (filter_conditions : option (gmap string value)) (s : State) : Prop :=
  exists embedding s1 e,
    VectorStore.get_embedding env self query s = (Ok embedding, s1)
    /\ query_reply (VectorStore.index self) s1
         (Pinecone.Query embedding top_k filter_conditions true) = Raise e.

(** The state in which [search] queries the index after the embedding
    service failed, and the query it makes: the fallback vector was drawn. *)
Definition state_after_fallback (self : VectorStore.t) (query : str) (s : State) : State :=
  after_draws (Z.to_nat (Config.GEMINI_EMBEDDING_DIM (VectorStore.config self)))
    (log_embed_call (text_sent query) s).

Definition fallback_query (env : Env) (self : VectorStore.t) (top_k : Z)
    (filter_conditions : option (gmap string value)) (s : State) : Pinecone.query_request :=
  Pinecone.Query
    (next_draws env s (Z.to_nat (Config.GEMINI_EMBEDDING_DIM (VectorStore.config self))))
    top_k filter_conditions true.

(** The index takes every batch it is sent. *)
Definition index_accepts (index : Index) : Prop :=
  forall s vs, upsert_reply index s vs = None.

(** The record the specification gives for a chunk: the string form of its
    id, an embedding of its content, and the three metadata entries with
    the content cut to 500 characters. *)
Definition record_of (env : Env) (self : VectorStore.t)
    (doc : Chunk.t) (v : Pinecone.vector) : Prop :=
  Pinecone.id v = str_of_int (Chunk.chunk_id doc)
  /\ (exists s0 s1,
        VectorStore.get_embedding env self (Chunk.content doc) s0
        = (Ok (Pinecone.values v), s1))
  /\ Pinecone.metadata v
     = {[ "page_number" := VInt (Chunk.page_number doc);
          "has_images" := VBool (Chunk.has_images doc);
          "content" := VStr (take 500 (Chunk.content doc)) ]}.

(** The batches the specification asks for: full batches, then at most one
    shorter, non-empty remainder. *)
Definition batched (size : Z) (batches : list (list Pinecone.vector)) : Prop :=
  exists full rest,
    batches = full ++ rest
    /\ Forall (fun b => Z.of_nat (length b) = size) full
    /\ (rest = [] \/ exists r, rest = [r] /\ r <> [] /\ Z.of_nat (length r) < size).

(** The reading of C8's bound as it is worded: no batch has more than
    [batch_size] records. *)
Definition within_batch_size (batch_size : Z)
    (batches : list (list Pinecone.vector)) : Prop :=
  Forall (fun b => Z.of_nat (length b) <= batch_size) batches.

(** The texts a request puts before the model, over all its turns. *)
Definition sent_texts (r : Gemini.request) : list str :=
  flat_map (fun t => flat_map (fun p => match p with
                                        | Gemini.Text text => [text]
                                        | Gemini.InlineData _ _ => []
                                        end) (Gemini.parts t))
           (Gemini.turns (Gemini.req_contents r)).

(** Whether [needle] occurs anywhere in the texts of a request. *)
Definition mentions (needle : str) (r : Gemini.request) : bool :=
  existsb (contains needle) (sent_texts r).

(** ** Sample inputs *)

(** A processor with the settings of [Config] and no model handle. *)
Definition default_processor : DocumentProcessor.t :=
  DocumentProcessor.Make Config.default None.

(** The page of the end-to-end scenario: 2500 characters, no image. *)
Definition page_2500 : Page.t :=
  Page.Make 1 [] (Some []) (repeat "a"%char 2500).

(** A page whose only image description is the empty string. *)
Definition blank_description_page : Page.t :=
  Page.Make 1 (lit "x") (Some [[]])
    (lit "Page 1" ++ DocumentProcessor.nl ++ DocumentProcessor.nl ++ lit "x"
     ++ DocumentProcessor.nl ++ DocumentProcessor.nl ++ lit "Visual Content:"
     ++ DocumentProcessor.nl).

(** An environment in which every service answers. *)
Definition working_env : Env := MkEnv
  (fun _ _ => Ok {[ "embedding" := [0.5; 0.25; 0.125]%float ]})
  (fun k => if Nat.even k then 0.5%float else 0.25%float)
  (fun _ _ => Ok [Byte.x89; Byte.x50; Byte.x4e; Byte.x47])
  (fun _ _ _ => Written)
  (fun _ _ => Ok (lit "iVBORw0KGgo=")).

(** The same with the embedding service down. *)
Definition embedding_down_env : Env := MkEnv
  (fun _ _ => Raise (MkExn "ServiceUnavailable" (lit "503 embedding service unavailable")))
  (random_random working_env)
  (extract_image working_env)
  (file_write working_env)
  (encode_jpeg working_env).

(** The same on a full disk: a file can be opened for writing, and the
    write raises. *)
Definition disk_full : exn := MkExn "OSError" (lit "[Errno 28] No space left on device").

Definition disk_full_env : Env := MkEnv
  (embed_content working_env)
  (random_random working_env)
  (extract_image working_env)
  (fun _ _ _ => WriteRaises disk_full)
  (encode_jpeg working_env).

(** A model that answers every request with [text], and one that fails. *)
Definition replying_model (text : str) : GenerativeModel :=
  MkModel (fun _ _ => Ok text).

Definition failing_model : GenerativeModel :=
  MkModel (fun _ _ => Raise (MkExn "ResourceExhausted" (lit "429 Quota exceeded"))).

(** An index that takes every batch and answers every query with [matches],
    and one that raises on every call. *)
Definition serving_index (matches : list Pinecone.scored_vector) : Index :=
  MkIndex (fun _ _ => None) (fun _ _ => Ok matches).

Definition failing_index : Index :=
  MkIndex (fun _ _ => Some (MkExn "PineconeException" (lit "connection refused")))
          (fun _ _ => Raise (MkExn "PineconeException" (lit "connection refused"))).

(** A stored chunk of page 1 that has images. *)
Definition chart_match : Pinecone.scored_vector :=
  Pinecone.Match (lit "0") 0.875%float
    (Some {[ "page_number" := VInt 1;
             "has_images" := VBool true;
             "content" := VStr (lit "Figure 1 is a bar chart of yearly sales.") ]}).

Definition store_with (index : Index) : VectorStore.t :=
  VectorStore.Make Config.default index.

(** A start in which both keys are set and the libraries answer, and the
    query processor the constructor builds in it over an index that
    returns [chart_match]. *)
Definition working_startup : QueryProcessor.Startup :=
  QueryProcessor.MkStartup (Some (lit "sk-test")) (Some (lit "test-key"))
    (fun _ => None) (fun _ => None)
    (fun _ => Ok (replying_model (lit "Sales rose every year."))).

Definition chart_processor : QueryProcessor.t :=
  QueryProcessor.Make (store_with (serving_index [chart_match]))
    (Some (replying_model (lit "Sales rose every year."))) Config.default.

Definition chart_query : str := lit "What does the chart show?".

(** Three chunks of one page. *)
Definition three_chunks : list Chunk.t :=
  [Chunk.Make 0 1 (lit "alpha") false;
   Chunk.Make 1 1 (lit "beta") false;
   Chunk.Make 2 1 (lit "gamma") false].

(** A document processor whose model fails on every request. *)
Definition failing_vision_processor : DocumentProcessor.t :=
  DocumentProcessor.Make Config.default (Some failing_model).

(** ** Further vocabulary *)

(** The paths of the temporary files of the first [n] images of a page. *)
Definition image_paths (self : DocumentProcessor.t) (page_num : Z) (first : Z) (n : nat)
    : list str :=
  map (fun k : nat => DocumentProcessor.image_path_for self page_num (first + Z.of_nat k))
      (seq 0 n).

(** The first lines of the content of page [page_num] (counted from 0). *)
Definition page_header (page_num : Z) : str :=
  lit "Page " ++ str_of_int (page_num + 1) ++ DocumentProcessor.nl ++ DocumentProcessor.nl.




(** What [process_pdf] makes of the page at position [page_num] (counted
    from 0): its number, its text, at most one description per image, and a
    content that opens with the header and the text, with nothing after
    them when there is no description. *)
Definition processed_from (page_num : Z) (page : DocumentProcessor.PdfPage)
    (content : Page.t) : Prop :=
  Page.page_number content = page_num + 1
  /\ Page.text content = DocumentProcessor.get_text page
  /\ exists descriptions rest,
       Page.image_descriptions content = Some descriptions
       /\ (length descriptions <= length (DocumentProcessor.get_images page))%nat
       /\ Page.full_content content
          = page_header page_num ++ DocumentProcessor.get_text page ++ rest
       /\ (descriptions = [] -> rest = []).

(** The page [process_pdf] builds from a page without images. *)
Definition text_only_page (k : nat) (page : DocumentProcessor.PdfPage) : Page.t :=
  Page.Make (Z.of_nat k + 1) (DocumentProcessor.get_text page) (Some [])
    (page_header (Z.of_nat k) ++ DocumentProcessor.get_text page).

(** The index refuses every batch with the exception [e]. *)
Definition index_refuses (index : Index) (e : exn) : Prop :=
  forall s vs, upsert_reply index s vs = Some e.

(** How a search result stands for a match: same id and score, and as
    content the entry of the metadata, or the empty string without one. *)
Definition result_of (m : Pinecone.scored_vector) (r : SearchResult.t) : Prop :=
  SearchResult.id r = Pinecone.m_id m
  /\ SearchResult.score r = Pinecone.m_score m
  /\ SearchResult.content r
     = match Pinecone.m_metadata m with
       | Some md => default (VStr []) (md !! "content")
       | None => VStr []
       end.

(** The request [generate_response] sends to the model for a context and a
    query. *)
Definition model_request (context_parts : list str) (query : str) : Gemini.request :=
  Gemini.Request
    (Gemini.Single (Gemini.Turn (lit "user")
       [Gemini.Text (QueryProcessor.user_prompt
                       (join (QueryProcessor.nl ++ QueryProcessor.nl) context_parts)
                       query)]))
    (Gemini.GenerationConfig 0.3 2048 (Some 0.95%float) (Some 40)).

(** The answer [generate_response] makes of what the model gave. *)
Definition answer_of (reply : result str) : str :=
  match reply with
  | Ok [] => QueryProcessor.error_answer (ValueError "Empty response from Gemini model")
  | Ok text => strip text
  | Raise e => QueryProcessor.error_answer e
  end.

(** The page a search result is labelled with. *)
Definition page_of (result : SearchResult.t) : value :=
  default (VStr (lit "N/A")) (SearchResult.metadata result !! "page_number").

(** How a source stands for a search result: its page; as content the
    first 500 characters of the content of the result, all of it when it
    is shorter, followed by an ellipsis; and its image flag, false when the
    metadata has none. *)
Definition source_of (result : SearchResult.t) (source : Source.t) : Prop :=
  Source.page source = page_of result
  /\ (exists text, SearchResult.content result = VStr text
                   /\ Source.content source = take 500 text ++ lit "...")
  /\ Source.has_images source
     = default (VBool false) (SearchResult.metadata result !! "has_images").

(** The context string of the search result at position [k], counted from
    0: its label and, on the next line, its content. *)
Definition context_part (k : nat) (result : SearchResult.t) : str :=
  lit "[Source " ++ str_of_int (Z.of_nat k + 1) ++ lit ", Page "
  ++ str_of_value (page_of result) ++ lit "]"
  ++ QueryProcessor.nl ++ str_of_value (SearchResult.content result).

(** A match whose content entry, when it has one, is a string, as in every
    record [upsert_documents] writes; and an index that answers with such
    matches only. *)
Definition holds_text (m : Pinecone.scored_vector) : Prop :=
  forall md v, Pinecone.m_metadata m = Some md -> md !! "content" = Some v ->
               exists text, v = VStr text.

Definition index_holds_text (index : Index) : Prop :=
  forall s q matches, query_reply index s q = Ok matches -> Forall holds_text matches.

(** A search result whose content is not a string. *)
Definition content_not_string (r : SearchResult.t) : Prop :=
  forall text, SearchResult.content r <> VStr text.

(** The lines [format_response] writes for the source numbered [i]. *)
Definition source_lines (i : Z) (source : Source.t) : str :=
  QueryProcessor.nl ++ lit "[" ++ str_of_int i ++ lit "] Page "
  ++ str_of_value (Source.page source) ++ QueryProcessor.nl
  ++ Source.content source ++ QueryProcessor.nl
  ++ (if truthy (Source.has_images source)
      then lit "(Contains visual content)" ++ QueryProcessor.nl
      else []).

(** [k] rounds of the waiting loop that found the index not ready: a look
    at the status and a sleep of one second, each time. *)
Fixpoint waits (index_name : str) (k : nat) : list IndexLifecycle.call :=
  match k with
  | O => []
  | S k => IndexLifecycle.DescribeIndex index_name :: IndexLifecycle.Sleep 1
           :: waits index_name k
  end.

(** The call that creates the index of a configuration. *)
Definition create_call (config : Config.t) : IndexLifecycle.call :=
  IndexLifecycle.CreateIndex Config.INDEX_NAME (Config.GEMINI_EMBEDDING_DIM config)
    (lit "cosine") (lit "aws") (lit "us-east-1").

(** The calls made up to the creation of the index, when it was not
    listed, and when it was listed with another dimension. *)
Definition created (config : Config.t) (l : list IndexLifecycle.call)
    : list IndexLifecycle.call :=
  l ++ [IndexLifecycle.ListIndexes; create_call config].

Definition recreated (config : Config.t) (l : list IndexLifecycle.call)
    : list IndexLifecycle.call :=
  l ++ [IndexLifecycle.ListIndexes; IndexLifecycle.DescribeIndex Config.INDEX_NAME;
        IndexLifecycle.DeleteIndex Config.INDEX_NAME; create_call config].

(** The status of the index is not ready at each of the first [k] looks of
    a wait that starts after the calls [l], and ready at the next. *)
Definition ready_after (client : IndexLifecycle.Client) (l : list IndexLifecycle.call)
    (k : nat) : Prop :=
  (forall j, (j < k)%nat ->
     exists status,
       IndexLifecycle.describe_index_reply client (l ++ waits Config.INDEX_NAME j)
         Config.INDEX_NAME = Ok status
       /\ IndexLifecycle.ready status = false)
  /\ exists status,
       IndexLifecycle.describe_index_reply client (l ++ waits Config.INDEX_NAME k)
         Config.INDEX_NAME = Ok status
       /\ IndexLifecycle.ready status = true.

(** ** Further sample inputs *)

(** Processors whose overlap equals, and exceeds, the chunk size. *)
Definition zero_step_processor : DocumentProcessor.t :=
  DocumentProcessor.Make (Config.Make 768 1000 1000 (lit "data/images")) None.

Definition negative_step_processor : DocumentProcessor.t :=
  DocumentProcessor.Make (Config.Make 768 200 1000 (lit "data/images")) None.

(** A document of two pages of text, and one of a single page with an image. *)
Definition text_document : list DocumentProcessor.PdfPage :=
  [DocumentProcessor.MkPdfPage (lit "Introduction") [];
   DocumentProcessor.MkPdfPage (lit "Results") []].

Definition image_document : list DocumentProcessor.PdfPage :=
  [DocumentProcessor.MkPdfPage (lit "x") [7]].

(** The exception of [failing_index]. *)
Definition connection_refused : exn :=
  MkExn "PineconeException" (lit "connection refused").

(** A stored record whose content entry is a number. *)
Definition number_match : Pinecone.scored_vector :=
  Pinecone.Match (lit "9") 0.5%float
    (Some {[ "page_number" := VInt 2; "content" := VInt 42 ]}).

(** Query processors over the index that returns [chart_match], with a
    model that gives the reply [text], and with one that fails. *)
Definition processor_replying (text : str) : QueryProcessor.t :=
  QueryProcessor.Make (store_with (serving_index [chart_match]))
    (Some (replying_model text)) Config.default.

Definition processor_failing : QueryProcessor.t :=
  QueryProcessor.Make (store_with (serving_index [chart_match]))
    (Some failing_model) Config.default.

(** The state, the context and the sources that the search for
    [chart_query] leaves in [working_env]. *)
Definition chart_search_state : State :=
  snd (VectorStore.search working_env (store_with (serving_index [chart_match]))
         chart_query 3 None World.initial).

Definition chart_context : list str :=
  [lit "[Source 1, Page 1]" ++ QueryProcessor.nl
   ++ lit "Figure 1 is a bar chart of yearly sales."].

Definition chart_sources : list Source.t :=
  [Source.Make (VInt 1) (lit "Figure 1 is a bar chart of yearly sales....")
     (VBool true)].

(** A Pinecone service that lists [names], describes the index with the
    dimension [dim] until an index was created and with 768 afterwards,
    reports it ready once [ready_after] sleeps were made, answers a
    creation with [creation], and holds [total] vectors. *)
Definition is_sleep (c : IndexLifecycle.call) : bool :=
  match c with IndexLifecycle.Sleep _ => true | _ => false end.

Definition is_create (c : IndexLifecycle.call) : bool :=
  match c with IndexLifecycle.CreateIndex _ _ _ _ _ => true | _ => false end.

Definition sample_client (names : list str) (dim : option Z) (creation : option exn)
    (ready_after : nat) (total : Z) : IndexLifecycle.Client :=
  IndexLifecycle.MkClient
    (fun _ => Ok names)
    (fun l _ => Ok (IndexLifecycle.Description
                      (if existsb is_create l then Some 768 else dim)
                      (ready_after <=? length (filter is_sleep l))%nat))
    (fun _ _ => None)
    (fun _ _ _ => creation)
    (fun _ _ => None)
    (fun _ => Ok total)
    (fun _ => None).

(** The service with the index in place; with an index of another
    dimension, slow to get the new one ready; refusing to create the
    index; and without the index, slow to get it ready. *)
Definition client_with_index : IndexLifecycle.Client :=
  sample_client [Config.INDEX_NAME] (Some 768) None 0 0.

Definition client_with_other_dimension : IndexLifecycle.Client :=
  sample_client [Config.INDEX_NAME] (Some 3072) None 2 0.

Definition client_refusing_creation : IndexLifecycle.Client :=
  sample_client [] None (Some connection_refused) 0 0.

Definition client_slow : IndexLifecycle.Client :=
  sample_client [] None None 2 0.

(** * Properties *)

(** ** Sequences, ranges and slices *)

Example range_steps : range 0 2500 800 = Ok [0; 800; 1600; 2400].
Proof. reflexivity. Qed.

Example range_zero_step : exists e, range 0 10 0 = Raise e.
Proof. eexists. reflexivity. Qed.

Example slice_bounds :
  slice [1; 2; 3; 4; 5] 3 10 = [4; 5]
  /\ slice [1; 2; 3; 4; 5] 1 (-1) = [2; 3; 4]
  /\ slice [1; 2; 3; 4; 5] 0 (-9) = [].
Proof. repeat split. Qed.

Example str_of_int_digits :
  str_of_int 0 = lit "0" /\ str_of_int 42 = lit "42" /\ str_of_int (-7) = lit "-7".
Proof. repeat split. Qed.

Example strip_blanks : strip (lit "  a b  ") = lit "a b" /\ strip (lit "   ") = [].
Proof. repeat split. Qed.

Section Slices.

Context {A : Type}.
Implicit Types (l : list A) (n m : nat).

Lemma take_plus l n m : take (n + m) l = take n l ++ take m (drop n l).
Proof.
  revert l; induction n as [|n IH]; intros [|x l]; simpl; try reflexivity.
  - now rewrite take_nil.
  - now rewrite IH.
Qed.

(** A slice with bounds [0 <= i <= j] takes [j - i] items after the first [i]. *)
Lemma slice_nonneg l (i j : Z) :
  0 <= i -> i <= j ->
  slice l i j = take (Z.to_nat (j - i)) (drop (Z.to_nat i) l).
Proof.
  intros Hi Hij. unfold slice, adjust_index.
  destruct (Z.ltb_spec i 0); [lia|].
  destruct (Z.ltb_spec j 0); [lia|].
  destruct (Z.le_gt_cases i (Z.of_nat (length l))) as [Hil|Hil].
  - rewrite (Z.min_l i) by lia.
    destruct (Z.le_gt_cases j (Z.of_nat (length l))) as [Hjl|Hjl].
    + now rewrite (Z.min_l j) by lia.
    + rewrite (Z.min_r j) by lia.
      rewrite !take_ge; [reflexivity | |]; rewrite length_drop; lia.
  - rewrite (Z.min_r i), (Z.min_r j) by lia.
    rewrite !drop_ge by lia. now rewrite !take_nil.
Qed.

Lemma prefix_take l (n : Z) : 0 <= n -> prefix l n = take (Z.to_nat n) l.
Proof.
  intros Hn. unfold prefix. rewrite slice_nonneg by lia.
  now rewrite Z.sub_0_r.
Qed.

Lemma suffix_drop l (n : Z) : 0 <= n -> suffix l n = drop (Z.to_nat n) l.
Proof.
  intros Hn. unfold suffix, slice, adjust_index.
  destruct (Z.ltb_spec n 0); [lia|].
  destruct (Z.ltb_spec (Z.of_nat (length l)) 0); [lia|].
  rewrite Z.min_id.
  destruct (Z.le_gt_cases n (Z.of_nat (length l))).
  - rewrite Z.min_l by lia. apply take_ge. rewrite length_drop. lia.
  - rewrite Z.min_r by lia. rewrite !drop_ge by lia. now rewrite take_nil.
Qed.

(** Consecutive windows of width [s] from offset [a] make up the next
    [m * s] items. *)
Lemma concat_windows l (s : nat) : forall (m a : nat),
  concat (map (fun j => take s (drop (a + j * s) l)) (seq 0 m))
  = take (m * s) (drop a l).
Proof.
  induction m as [|m IH]; intros a; simpl.
  - reflexivity.
  - rewrite Nat.add_0_r, <- seq_shift, map_map.
    rewrite take_plus, drop_drop. f_equal.
    rewrite <- IH. f_equal. apply map_ext. intros j. do 2 f_equal. lia.
Qed.

End Slices.

(** [ceil_div a b] is the least [q] with [a <= q * b]. *)
Lemma ceil_div_spec a b q : 0 < b -> ceil_div a b = q <-> (q - 1) * b < a <= q * b.
Proof.
  intros Hb. unfold ceil_div. split.
  - intros <-.
    pose proof (Z.mul_div_le (a + b - 1) b Hb).
    pose proof (Z.mul_succ_div_gt (a + b - 1) b Hb). nia.
  - intros [H1 H2]. symmetry. apply Z.div_unique with (r := a + b - 1 - b * q); lia.
Qed.

Lemma range_length_ceil stop step :
  0 < step -> range_length 0 stop step = Z.max 0 (ceil_div stop step).
Proof.
  intros Hs. unfold range_length.
  destruct (Z.ltb_spec 0 step); [|lia].
  destruct (Z.ltb_spec 0 stop).
  - assert (E : ceil_div stop step = (stop - 0 - 1) / step + 1).
    { unfold ceil_div. rewrite <- Z.div_add by lia. f_equal. lia. }
    rewrite <- E. symmetry. apply Z.max_r.
    rewrite E. pose proof (Z.div_pos (stop - 0 - 1) step). lia.
  - symmetry. apply Z.max_l. unfold ceil_div.
    assert ((stop + step - 1) / step < 1) by (apply Z.div_lt_upper_bound; lia).
    lia.
Qed.

(** ** Chunking *)

Section Chunking.

Import DocumentProcessor.

Variable self : DocumentProcessor.t.

Local Notation "'C'" := (Config.CHUNK_SIZE (config self)).
Local Notation "'O'" := (Config.CHUNK_OVERLAP (config self)).

Lemma fold_append_chunk page starts : forall chunks chunk_id,
  fold_left (append_chunk self page) starts (chunks, chunk_id)
  = (chunks ++ imap (chunk_at self page chunk_id) starts,
     chunk_id + Z.of_nat (length starts)).
Proof.
  induction starts as [|i starts IH]; intros chunks chunk_id; simpl.
  - now rewrite app_nil_r, Z.add_0_r.
  - rewrite IH. rewrite <- app_assoc. simpl. f_equal.
    + do 2 f_equal.
      * unfold chunk_at, descriptions_of. now rewrite Z.add_0_r.
      * apply imap_ext. intros k x _. unfold chunk_at. simpl.
        f_equal. lia.
    + lia.
Qed.

(** Whenever the step is not zero, a page adds its chunks, one per start
    offset, to the chunks gathered so far. *)
Lemma chunk_page_emits st page :
  C - O <> 0 ->
  let starts := chunk_starts self (length (Page.full_content page)) in
  chunk_page self st page
  = Ok (fst st ++ imap (chunk_at self page (snd st)) starts,
        snd st + Z.of_nat (length starts)).
Proof.
  intros Hstep starts. unfold chunk_page, range.
  destruct (Z.eqb_spec (C - O) 0) as [E|_]; [contradiction|]. simpl.
  destruct st as [chunks chunk_id]. now rewrite fold_append_chunk.
Qed.

Lemma chunk_starts_length len :
  O < C ->
  Z.of_nat (length (chunk_starts self len)) = ceil_div (Z.of_nat len) (C - O).
Proof.
  intros H. unfold chunk_starts. rewrite length_map, length_seq.
  rewrite range_length_ceil by lia.
  assert (0 <= ceil_div (Z.of_nat len) (C - O)).
  { unfold ceil_div. apply Z.div_pos; lia. }
  lia.
Qed.

(** C2, as the code has it: with overlap smaller than the chunk size, a
    page whose text has length [L] adds exactly [ceil(L / (C - O))] chunks
    to the output (none when the text is empty), and the running chunk id
    advances by as many. *)
Theorem chunk_page_count st page :
  O < C ->
  exists new,
    chunk_page self st page = Ok (fst st ++ new, snd st + Z.of_nat (length new))
    /\ Z.of_nat (length new)
       = ceil_div (Z.of_nat (length (Page.full_content page))) (C - O).
Proof.
  intros H.
  exists (imap (chunk_at self page (snd st))
               (chunk_starts self (length (Page.full_content page)))).
  rewrite length_imap. split.
  - apply chunk_page_emits. lia.
  - now apply chunk_starts_length.
Qed.

(** The contents of the chunks of a page are the windows of width [C] at
    the multiples of [C - O]. *)
Lemma chunk_contents_windows page chunk_id :
  0 <= O -> O < C ->
  map Chunk.content
      (imap (chunk_at self page chunk_id)
            (chunk_starts self (length (Page.full_content page))))
  = map (fun k : nat => take (Z.to_nat C)
                          (drop (k * Z.to_nat (C - O)) (Page.full_content page)))
        (seq 0 (Z.to_nat (ceil_div (Z.of_nat (length (Page.full_content page)))
                                   (C - O)))).
Proof.
  intros H0 H. unfold chunk_starts.
  rewrite range_length_ceil by lia.
  assert (0 <= ceil_div (Z.of_nat (length (Page.full_content page))) (C - O)).
  { unfold ceil_div. apply Z.div_pos; lia. }
  rewrite Z.max_r by lia.
  generalize (Z.to_nat (ceil_div (Z.of_nat (length (Page.full_content page))) (C - O))).
  intros n.
  change (map Chunk.content ?l) with (Chunk.content <$> l).
  rewrite fmap_imap.
  rewrite (imap_ext _ (const (fun i => slice (Page.full_content page) i (i + C))))
    by reflexivity.
  rewrite imap_const.
  change (?f <$> map ?g ?l) with (map f (map g l)).
  rewrite map_map. apply map_ext. intros k.
  rewrite slice_nonneg by nia. f_equal.
  - f_equal. lia.
  - f_equal. rewrite Z.add_0_l, Z2Nat.inj_mul, Nat2Z.id by lia. reflexivity.
Qed.

(** C4: with [0 <= O < C], joining the contents of the chunks of a page,
    after the first [O] characters are taken off every chunk except the
    first, gives back the page text exactly. *)
Theorem chunk_page_reconstructs st page :
  0 <= O -> O < C ->
  exists new,
    chunk_page self st page = Ok (fst st ++ new, snd st + Z.of_nat (length new))
    /\ concat (remove_overlaps O (map Chunk.content new)) = Page.full_content page.
Proof.
  intros H0 H.
  exists (imap (chunk_at self page (snd st))
               (chunk_starts self (length (Page.full_content page)))).
  rewrite length_imap. split; [apply chunk_page_emits; lia|].
  rewrite chunk_contents_windows by assumption.
  set (text := Page.full_content page).
  set (q := ceil_div (Z.of_nat (length text)) (C - O)).
  assert (Hq : (q - 1) * (C - O) < Z.of_nat (length text) <= q * (C - O)).
  { apply ceil_div_spec; [lia | reflexivity]. }
  assert (Hc : Z.to_nat C = (Z.to_nat (C - O) + Z.to_nat O)%nat) by lia.
  destruct (Z.to_nat q) as [|m] eqn:En.
  - simpl. assert (length text = 0%nat) by nia.
    symmetry. now apply nil_length_inv.
  - simpl. rewrite <- seq_shift, !map_map, drop_0.
    rewrite (map_ext _ (fun j : nat =>
               take (Z.to_nat (C - O)) (drop (Z.to_nat C + j * Z.to_nat (C - O)) text))).
    + rewrite concat_windows, <- take_plus.
      apply take_ge. nia.
    + intros j. rewrite suffix_drop by lia.
      rewrite Hc at 1. rewrite Nat.add_comm, <- take_drop_commute, drop_drop.
      do 2 f_equal. lia.
Qed.


Lemma chunk_page_inv st page st' :
  chunk_page self st page = Ok st' ->
  exists starts,
    st' = (fst st ++ imap (chunk_at self page (snd st)) starts,
           snd st + Z.of_nat (length starts)).
Proof.
  unfold chunk_page. destruct (range _ _ _) as [starts|e]; simpl; [|discriminate].
  intros [= <-]. exists starts. destruct st. apply fold_append_chunk.
Qed.

(** Every chunk gathered by the loop over the pages was there before or is
    a chunk of one of the pages. *)
Lemma chunk_pages_source pages : forall st st',
  chunk_pages self st pages = Ok st' ->
  forall c, In c (fst st') ->
    In c (fst st)
    \/ exists page chunk_id k i, In page pages /\ c = chunk_at self page chunk_id k i.
Proof.
  induction pages as [|page pages IH]; simpl; intros st st' Hrun c Hc.
  - injection Hrun as <-. now left.
  - destruct (chunk_page self st page) as [st1|e] eqn:E1; simpl in Hrun; [|discriminate].
    destruct (IH _ _ Hrun c Hc) as [Hin | (pg & cid & k & i & Hpg & ->)].
    + apply chunk_page_inv in E1 as [starts ->]. simpl in Hin.
      apply in_app_or in Hin as [Hin|Hin]; [now left|right].
      apply list_elem_of_In, elem_of_lookup_imap in Hin as (k & i & -> & _).
      exists page, (snd st), k, i. auto.
    + right. exists pg, cid, k, i. auto.
Qed.

(** The loop over the pages raises only through a zero step. *)
Lemma chunk_document_returns pages :
  C - O <> 0 -> exists chunks, chunk_document self pages = Ok chunks.
Proof.
  intros H. unfold chunk_document.
  generalize (@nil Chunk.t, 0). induction pages as [|page pages IH]; intros st; simpl.
  - eauto.
  - rewrite chunk_page_emits by assumption. simpl. apply IH.
Qed.

(** C3, as the code has it: every chunk of the output comes from a page of
    the input, carries that page's number and a window of its text, and
    its [has_images] is true exactly when the page's sequence of image
    descriptions has at least one entry, whatever the entry's text. *)
Theorem chunk_has_images_iff_descriptions pages chunks c :
  chunk_document self pages = Ok chunks ->
  In c chunks ->
  exists page,
    In page pages
    /\ Chunk.page_number c = Page.page_number page
    /\ (exists i, Chunk.content c = slice (Page.full_content page) i (i + C))
    /\ (Chunk.has_images c = true <-> descriptions_of page <> []).
Proof.
  unfold chunk_document. intros Hrun Hc.
  destruct (chunk_pages self ([], 0) pages) as [st|e] eqn:E; simpl in Hrun; [|discriminate].
  injection Hrun as <-.
  destruct (chunk_pages_source _ _ _ E c Hc) as [[] | (page & cid & k & i & Hpg & ->)].
  exists page. repeat split; simpl; eauto.
  - intros Hflag Hnil. rewrite Hnil in Hflag. discriminate.
  - intros Hne. destruct (descriptions_of page); [contradiction | reflexivity].
Qed.

End Chunking.

(** The settings of [Config] meet the hypotheses, on the page of the
    end-to-end scenario: four chunks. *)
Lemma chunk_page_count_witness :
  Config.CHUNK_OVERLAP (DocumentProcessor.config default_processor)
  < Config.CHUNK_SIZE (DocumentProcessor.config default_processor)
  /\ exists new,
       DocumentProcessor.chunk_page default_processor ([], 0) page_2500
       = Ok (fst ([], 0) ++ new, snd (@nil Chunk.t, 0) + Z.of_nat (length new))
       /\ Z.of_nat (length new)
          = ceil_div (Z.of_nat (length (Page.full_content page_2500)))
              (Config.CHUNK_SIZE (DocumentProcessor.config default_processor)
               - Config.CHUNK_OVERLAP (DocumentProcessor.config default_processor)).
Proof.
  split; [reflexivity|].
  apply (chunk_page_count default_processor ([], 0) page_2500). reflexivity.
Defined.

(** C2 fails as worded: on the 2500-character page with C = 1000 and
    O = 200 the code emits four chunks, while [ceil((L - O) / (C - O))]
    is three. *)
Lemma specified_chunk_count_fails :
  exists new,
    DocumentProcessor.chunk_page default_processor ([], 0) page_2500 = Ok (new, 4)
    /\ Z.of_nat (length new) = 4
    /\ specified_chunk_count 1000 200 2500 = 3
    /\ Z.of_nat (length new) <> specified_chunk_count 1000 200 2500.
Proof.
  eexists. split; [vm_compute; reflexivity|].
  repeat split; vm_compute; congruence.
Qed.

(** The other branch of the wording fails too: a text of exactly [C]
    characters gives two chunks, the second inside the first. *)
Example full_chunk_page_gives_two :
  exists c1 c2,
    DocumentProcessor.chunk_page default_processor ([], 0)
      (Page.Make 1 [] None (repeat "a"%char 1000)) = Ok ([c1; c2], 2)
    /\ length (Chunk.content c1) = 1000%nat
    /\ length (Chunk.content c2) = 200%nat
    /\ specified_chunk_count 1000 200 1000 = 1.
Proof.
  do 2 eexists. split; [vm_compute; reflexivity|].
  repeat split; vm_compute; reflexivity.
Qed.

Lemma chunk_page_reconstructs_witness :
  0 <= Config.CHUNK_OVERLAP (DocumentProcessor.config default_processor)
  /\ Config.CHUNK_OVERLAP (DocumentProcessor.config default_processor)
     < Config.CHUNK_SIZE (DocumentProcessor.config default_processor)
  /\ exists new,
       DocumentProcessor.chunk_page default_processor ([], 0) page_2500
       = Ok (fst ([], 0) ++ new, snd (@nil Chunk.t, 0) + Z.of_nat (length new))
       /\ concat (remove_overlaps
                    (Config.CHUNK_OVERLAP (DocumentProcessor.config default_processor))
                    (map Chunk.content new))
          = Page.full_content page_2500.
Proof.
  split; [discriminate|]. split; [reflexivity|].
  apply (chunk_page_reconstructs default_processor ([], 0) page_2500);
    [discriminate | reflexivity].
Defined.

(** C3 fails as worded: a page whose one description is the empty string
    gives a chunk with [has_images] set, although no description of the
    page is non-empty. *)
Lemma flag_means_nonempty_description_fails :
  exists c,
    DocumentProcessor.chunk_document default_processor [blank_description_page] = Ok [c]
    /\ Chunk.has_images c = true
    /\ ~ flag_means_nonempty_description blank_description_page c.
Proof.
  eexists. split; [vm_compute; reflexivity|]. split; [reflexivity|].
  intros [Hflag _]. destruct (Hflag eq_refl) as (d & Hd & Hne).
  simpl in Hd. destruct Hd as [<- | []]. now apply Hne.
Qed.

Lemma chunk_has_images_iff_descriptions_witness :
  exists c,
    DocumentProcessor.chunk_document default_processor [blank_description_page] = Ok [c]
    /\ In c [c]
    /\ exists page,
         In page [blank_description_page]
         /\ Chunk.page_number c = Page.page_number page
         /\ (exists i, Chunk.content c
                       = slice (Page.full_content page) i
                           (i + Config.CHUNK_SIZE (DocumentProcessor.config default_processor)))
         /\ (Chunk.has_images c = true <-> descriptions_of page <> []).
Proof.
  eexists. split; [vm_compute; reflexivity|]. split; [now left|].
  eapply (chunk_has_images_iff_descriptions default_processor [blank_description_page]).
  - vm_compute. reflexivity.
  - now left.
Defined.

(** ** Temporary image files *)

Section TemporaryFiles.

Import DocumentProcessor.

Variable env : Env.
Variable self : DocumentProcessor.t.

(** The description step always hands back a string, whatever happens to
    the request, and leaves the files as they are. *)
Lemma _get_image_description_returns image_path s :
  exists description s',
    _get_image_description env self image_path s = (Ok description, s')
    /\ files s' = files s.
Proof.
  unfold _get_image_description.
  destruct (gemini_model self) as [model|]; [|unfold ret; eauto].
  unfold try_except, mbind, read_binary, generate_content, raise, ret.
  destruct (files s !! image_path) as [img|]; [|eauto].
  destruct (encode_jpeg env s img) as [data|e]; [|eauto].
  destruct (respond model s _) as [response_text|e]; [|simpl; eauto].
  destruct (Nat.eqb (length response_text) 0); simpl; eauto.
Qed.

(** The turn of the loop for an image whose bytes were extracted and
    saved: it ends with the description appended and the temporary file
    gone. The files are those from before the turn without the image's
    path, and it is in that state that the loop goes on to the remaining
    images. This holds for every model handle and every answer of the
    environment, so whether the description request succeeds or fails. *)
Theorem describe_image_removes_file page_num descriptions img_index xref rest s image_bytes :
  extract_image env s xref = Ok image_bytes ->
  file_write env s (image_path_for self page_num img_index) image_bytes = Written ->
  exists description s',
    describe_image env self page_num descriptions img_index xref s
    = (Ok (descriptions ++ [description]), s')
    /\ files s' !! image_path_for self page_num img_index = None
    /\ files s' = delete (image_path_for self page_num img_index) (files s)
    /\ describe_images env self page_num descriptions img_index (xref :: rest) s
       = describe_images env self page_num (descriptions ++ [description])
           (img_index + 1) rest s'.
Proof.
  intros Hextract Hwrite.
  set (path := image_path_for self page_num img_index) in *.
  destruct (_get_image_description_returns path
              (set_files (insert path image_bytes) s))
    as (description & s2 & Hd & Hfiles).
  assert (Hsaved : files s2 !! path = Some image_bytes).
  { rewrite Hfiles. simpl. apply lookup_insert_eq. }
  assert (Hturn : describe_image env self page_num descriptions img_index xref s
                  = (Ok (descriptions ++ [description]), set_files (delete path) s2)).
  { unfold describe_image, try_except, mbind, write_binary, os_remove, ret.
    fold path. cbv beta. rewrite Hextract, Hwrite, Hd, Hsaved. reflexivity. }
  exists description, (set_files (delete path) s2).
  split; [exact Hturn|]. split; [|split].
  - simpl. apply lookup_delete_eq.
  - simpl. rewrite Hfiles. simpl. apply delete_insert_eq.
  - simpl. unfold mbind at 1. now rewrite Hturn.
Qed.

(** C9, where the code misses it: [os.remove] is the last statement of the
    [try] body and there is no [finally]. When the temporary file was
    opened and writing the bytes raises, the handler goes on to the next
    image: no description is asked for or appended, and the file that
    [open] created is still there when the loop takes the next image. *)
Theorem describe_image_leaves_file page_num descriptions img_index xref rest s
    image_bytes e :
  extract_image env s xref = Ok image_bytes ->
  file_write env s (image_path_for self page_num img_index) image_bytes = WriteRaises e ->
  exists s',
    describe_image env self page_num descriptions img_index xref s = (Ok descriptions, s')
    /\ files s' !! image_path_for self page_num img_index <> None
    /\ (forall p, p <> image_path_for self page_num img_index ->
                  files s' !! p = files s !! p)
    /\ model_calls s' = model_calls s
    /\ describe_images env self page_num descriptions img_index (xref :: rest) s
       = describe_images env self page_num descriptions (img_index + 1) rest s'.
Proof.
  intros Hextract Hwrite.
  set (path := image_path_for self page_num img_index) in *.
  assert (Hturn : describe_image env self page_num descriptions img_index xref s
                  = (Ok descriptions, set_files (insert path []) s)).
  { unfold describe_image, try_except, mbind, write_binary, ret.
    fold path. cbv beta. now rewrite Hextract, Hwrite. }
  exists (set_files (insert path []) s).
  split; [exact Hturn|]. split; [|split; [|split]].
  - simpl. now rewrite lookup_insert_eq.
  - intros p Hp. simpl. now apply lookup_insert_ne.
  - reflexivity.
  - simpl. unfold mbind at 1. now rewrite Hturn.
Qed.

End TemporaryFiles.

(** ** Embeddings *)

Section Embeddings.

Import VectorStore.

Variable env : Env.
Variable self : VectorStore.t.

Local Notation "'DIM'" := (Config.GEMINI_EMBEDDING_DIM (config self)).

Lemma after_draws_0 s : after_draws 0 s = s.
Proof. destruct s. unfold after_draws. simpl. now rewrite Nat.add_0_r. Qed.

Lemma after_draws_S n s : after_draws n (log_draw s) = after_draws (S n) s.
Proof. unfold after_draws, log_draw. simpl. f_equal. lia. Qed.

Lemma random_list_draws indices : forall s,
  random_list env indices s
  = (Ok (next_draws env s (length indices)), after_draws (length indices) s).
Proof.
  induction indices as [|i indices IH]; intros s; simpl.
  - unfold ret. now rewrite after_draws_0.
  - unfold mbind, random. rewrite IH. unfold ret.
    now rewrite after_draws_S.
Qed.

Lemma range_dim_length :
  exists indices,
    range 0 DIM 1 = Ok indices /\ length indices = Z.to_nat DIM.
Proof.
  unfold range. simpl. eexists. split; [reflexivity|].
  rewrite length_map, length_seq. unfold range_length. simpl.
  destruct (Z.ltb_spec 0 DIM).
  - rewrite Z.div_1_r. lia.
  - lia.
Qed.

(** What [get_embedding] does, by the answer of the embedding service. *)
Lemma get_embedding_cases text s :
  let s1 := log_embed_call (text_sent text) s in
  let fallback := (Ok (next_draws env s (Z.to_nat DIM)), after_draws (Z.to_nat DIM) s1) in
  get_embedding env self text s
  = match embed_content env s (text_sent text) with
    | Ok result =>
      match result !! "embedding" with
      | Some embedding => (Ok embedding, s1)
      | None => fallback
      end
    | Raise _ => fallback
    end.
Proof.
  unfold get_embedding, try_except, mbind at 1, genai_embed_content, text_sent.
  cbv beta zeta delta [str].
  set (sent := if 10000 <? Z.of_nat (length text) then prefix text 10000 else text).
  set (s1 := log_embed_call sent s).
  assert (Hfb : (do* indices := lift (range 0 DIM 1) in random_list env indices) s1
                = (Ok (next_draws env s (Z.to_nat DIM)), after_draws (Z.to_nat DIM) s1)).
  { destruct range_dim_length as (indices & Hr & Hlen).
    unfold mbind, lift. rewrite Hr, random_list_draws, Hlen. reflexivity. }
  destruct (embed_content env s sent) as [result|e].
  - destruct (result !! "embedding") as [embedding|]; [reflexivity|].
    unfold raise. apply Hfb.
  - apply Hfb.
Qed.

(** [get_embedding] never raises, and touches neither the files nor the
    logs of the model and of the index. *)
Lemma get_embedding_returns text s :
  exists embedding s',
    get_embedding env self text s = (Ok embedding, s')
    /\ model_calls s' = model_calls s
    /\ upsert_calls s' = upsert_calls s
    /\ query_calls s' = query_calls s.
Proof.
  rewrite get_embedding_cases.
  destruct (embed_content env s (text_sent text)) as [result|e];
    [destruct (result !! "embedding")|]; eauto 10.
Qed.

(** C5: when the embedding service fails on a text, [get_embedding] returns
    to its caller, without raising, the next values of [random.random()],
    as many as the configured dimensionality. *)
Theorem get_embedding_falls_back text s :
  embedding_service_fails env s text ->
  exists embedding s',
    get_embedding env self text s = (Ok embedding, s')
    /\ length embedding = Z.to_nat DIM
    /\ embedding = next_draws env s (Z.to_nat DIM)
    /\ rng_draws s' = (rng_draws s + Z.to_nat DIM)%nat.
Proof.
  unfold embedding_service_fails. intros Hfail.
  rewrite get_embedding_cases.
  destruct (embed_content env s (text_sent text)) as [result|e];
    [rewrite Hfail|];
    (do 2 eexists; split; [reflexivity|]; split; [|split; reflexivity]);
    unfold next_draws; now rewrite length_map, length_seq.
Qed.

End Embeddings.

(** ** Upserting *)

Section Upserting.

Import VectorStore.

Variable env : Env.
Variable self : VectorStore.t.
Variable batch_size : Z.

Hypothesis accepts : index_accepts (index self).

Lemma vector_of_record doc embedding s0 s1 :
  get_embedding env self (Chunk.content doc) s0 = (Ok embedding, s1) ->
  record_of env self doc (vector_of doc embedding).
Proof.
  intros H. unfold record_of, vector_of. simpl. repeat split; eauto.
  now rewrite prefix_take by lia.
Qed.

(** One turn of the loop: the record of the chunk joins the pending ones,
    which are sent as a full batch or kept. *)
Lemma upsert_step_spec vectors doc s :
  Z.of_nat (length vectors) < Z.max 1 batch_size ->
  exists v s',
    record_of env self doc v
    /\ ((upsert_step env self batch_size vectors doc s = (Ok [], s')
         /\ upsert_calls s' = upsert_calls s ++ [vectors ++ [v]]
         /\ Z.of_nat (length (vectors ++ [v])) = Z.max 1 batch_size)
        \/ (upsert_step env self batch_size vectors doc s = (Ok (vectors ++ [v]), s')
            /\ upsert_calls s' = upsert_calls s
            /\ Z.of_nat (length (vectors ++ [v])) < Z.max 1 batch_size)).
Proof.
  intros Hpending.
  destruct (get_embedding_returns env self (Chunk.content doc) s)
    as (embedding & s1 & Hemb & _ & Hups & _).
  set (v := vector_of doc embedding).
  assert (Hstep : upsert_step env self batch_size vectors doc s
                  = if batch_size <=? Z.of_nat (length (vectors ++ [v]))
                    then (Ok [], log_upsert_call (vectors ++ [v]) s1)
                    else (Ok (vectors ++ [v]), s1)).
  { unfold upsert_step, mbind at 1. rewrite Hemb. cbv zeta. fold v.
    destruct (batch_size <=? Z.of_nat (length (vectors ++ [v]))); [|reflexivity].
    unfold mbind, index_upsert, ret. now rewrite accepts. }
  assert (Hlen : Z.of_nat (length (vectors ++ [v])) = Z.of_nat (length vectors) + 1).
  { rewrite length_app. simpl. lia. }
  assert (Hrec : record_of env self doc v) by (eapply vector_of_record; eassumption).
  exists v. rewrite Hstep.
  destruct (Z.leb_spec batch_size (Z.of_nat (length (vectors ++ [v])))).
  - exists (log_upsert_call (vectors ++ [v]) s1). split; [assumption|]. left.
    simpl. rewrite Hups. repeat split. lia.
  - exists s1. split; [assumption|]. right. repeat split; [assumption | lia].
Qed.

Lemma upsert_loop_spec documents : forall vectors s,
  Z.of_nat (length vectors) < Z.max 1 batch_size ->
  exists full records vectors' s',
    upsert_loop env self batch_size vectors documents s = (Ok vectors', s')
    /\ upsert_calls s' = upsert_calls s ++ full
    /\ vectors ++ records = concat full ++ vectors'
    /\ Forall2 (record_of env self) documents records
    /\ Forall (fun b => Z.of_nat (length b) = Z.max 1 batch_size) full
    /\ Z.of_nat (length vectors') < Z.max 1 batch_size.
Proof.
  induction documents as [|doc documents IH]; intros vectors s Hpending; simpl.
  - exists [], [], vectors, s. unfold ret.
    rewrite !app_nil_r. repeat split; auto.
  - destruct (upsert_step_spec vectors doc s Hpending)
      as (v & s1 & Hrec & [(Hstep & Hups & Hlen) | (Hstep & Hups & Hlen)]).
    + destruct (IH [] s1) as (full & records & vectors' & s' & Hrun & Hups' & Hcat & Hrecs & Hfull & Hp');
        [simpl; lia|].
      exists ((vectors ++ [v]) :: full), (v :: records), vectors', s'.
      unfold mbind. rewrite Hstep, Hrun. repeat split; auto.
      * rewrite Hups', Hups, <- app_assoc. reflexivity.
      * simpl in Hcat. subst records. simpl. rewrite <- !app_assoc. reflexivity.
    + destruct (IH (vectors ++ [v]) s1) as (full & records & vectors' & s' & Hrun & Hups' & Hcat & Hrecs & Hfull & Hp');
        [assumption|].
      exists full, (v :: records), vectors', s'.
      unfold mbind. rewrite Hstep, Hrun. repeat split; auto.
      * now rewrite Hups', Hups.
      * rewrite <- Hcat, <- app_assoc. reflexivity.
Qed.

(** C8, as the code has it: when the index takes every batch, the call
    returns, and the batches it sent, read in order, hold one record per
    chunk, in the order of the chunks, each with the string form of the
    chunk id, an embedding of the chunk's content and the three metadata
    entries; every batch but a last shorter one has [max 1 batch_size]
    records. *)
Theorem upsert_documents_batches documents s :
  exists batches s',
    upsert_documents env self documents batch_size s = (Ok tt, s')
    /\ upsert_calls s' = upsert_calls s ++ batches
    /\ Forall2 (record_of env self) documents (concat batches)
    /\ batched (Z.max 1 batch_size) batches.
Proof.
  destruct (upsert_loop_spec documents [] s)
    as (full & records & vectors' & s1 & Hrun & Hups & Hcat & Hrecs & Hfull & Hp);
    [simpl; lia|].
  simpl in Hcat. subst records.
  unfold upsert_documents, mbind. rewrite Hrun.
  destruct vectors' as [|v vectors'].
  - exists full, s1. unfold ret. rewrite app_nil_r in Hrecs.
    repeat split; auto.
    exists full, []. rewrite app_nil_r. auto.
  - exists (full ++ [v :: vectors']), (log_upsert_call (v :: vectors') s1).
    unfold index_upsert. rewrite accepts. simpl.
    repeat split.
    + rewrite Hups, <- app_assoc. reflexivity.
    + rewrite concat_app. simpl. now rewrite app_nil_r.
    + exists full, [v :: vectors']. repeat split; auto.
      right. eexists. repeat split; [discriminate | assumption].
Qed.

End Upserting.

(** ** Searching *)

Section Searching.

Import VectorStore.

Variable env : Env.
Variable self : VectorStore.t.

(** What [search] does, by the answer of the index. *)
Lemma search_cases query top_k filter_conditions s embedding s1 :
  get_embedding env self query s = (Ok embedding, s1) ->
  let q := Pinecone.Query embedding top_k filter_conditions true in
  search env self query top_k filter_conditions s
  = match query_reply (index self) s1 q with
    | Ok matches => (Ok (map format_match matches), log_query_call q s1)
    | Raise _ => (Ok [], log_query_call q s1)
    end.
Proof.
  intros Hemb q. unfold search, mbind at 1. rewrite Hemb.
  unfold try_except, mbind, index_query, ret. fold q.
  now destruct (query_reply (index self) s1 q).
Qed.

(** [search] always returns a list, and never calls the language model. *)
Lemma search_returns query top_k filter_conditions s :
  exists results s',
    search env self query top_k filter_conditions s = (Ok results, s')
    /\ model_calls s' = model_calls s.
Proof.
  destruct (get_embedding_returns env self query s)
    as (embedding & s1 & Hemb & Hmodel & _).
  rewrite (search_cases _ _ _ _ _ _ Hemb).
  destruct (query_reply _ _ _); eauto.
Qed.

(** C6: [search] never raises to its caller, whatever the services answer,
    and when the search fails, that is, when the similarity query raises,
    the list it returns is empty. A failure of the embedding service is not
    a failure of the search: [get_embedding] answers it with its fallback
    vector, and the search goes on with that vector and returns what the
    index gives for it. *)
Theorem search_swallows_failure query top_k filter_conditions s :
  (exists results s',
     search env self query top_k filter_conditions s = (Ok results, s'))
  /\ (index_query_fails env self query top_k filter_conditions s ->
      exists s', search env self query top_k filter_conditions s = (Ok [], s'))
  /\ (embedding_service_fails env s query ->
      forall matches,
        query_reply (index self) (state_after_fallback self query s)
          (fallback_query env self top_k filter_conditions s) = Ok matches ->
        exists s',
          search env self query top_k filter_conditions s
          = (Ok (map format_match matches), s')).
Proof.
  split; [|split].
  - destruct (search_returns query top_k filter_conditions s) as (r & s' & H & _).
    eauto.
  - intros (embedding & s1 & e & Hemb & Hfail).
    rewrite (search_cases _ _ _ _ _ _ Hemb), Hfail. eauto.
  - intros Hfail matches Hreply.
    assert (Hemb : get_embedding env self query s
                   = (Ok (next_draws env s (Z.to_nat (Config.GEMINI_EMBEDDING_DIM (config self)))),
                      state_after_fallback self query s)).
    { rewrite get_embedding_cases. unfold embedding_service_fails in Hfail.
      destruct (embed_content env s (text_sent query)) as [result|e];
        [rewrite Hfail|]; reflexivity. }
    rewrite (search_cases _ _ _ _ _ _ Hemb).
    unfold fallback_query in Hreply. rewrite Hreply. eauto.
Qed.

End Searching.

(** ** Answering *)

Section Answering.

Import QueryProcessor.

Variable env : Env.
Variable self : QueryProcessor.t.

(** C7: when the retrieval returns no result, [generate_response] returns
    the fixed answer with no sources and no context, in the state the
    search left, and the log of calls to the language model is as it was
    before the call. *)
Theorem generate_response_without_results query use_vision s s1 :
  VectorStore.search env (vector_store self) query 3 None s = (Ok [], s1) ->
  generate_response env self query use_vision s
  = (Ok (Response.Make
           (lit "I couldn't find any relevant information to answer your question.")
           [] (Some [])), s1)
  /\ model_calls s1 = model_calls s.
Proof.
  intros Hsearch. split.
  - unfold generate_response, mbind at 1. now rewrite Hsearch.
  - destruct (search_returns env (vector_store self) query 3 None s)
      as (r & s' & H & Hmodel).
    rewrite Hsearch in H. now injection H as _ <-.
Qed.

(** The user message is always among the two messages. *)
Lemma find_user_message context query use_vision sources :
  find_role (lit "user") (build_messages context query use_vision sources)
  = Some (Message.Make (lit "user") (user_prompt context query)).
Proof. reflexivity. Qed.

(** What [generate_response] does once the search gave results and the
    sources were gathered: the only request that reaches the model is the
    user turn alone. *)
Lemma generate_response_with_results query use_vision s s1 result results
    context_parts sources model :
  VectorStore.search env (vector_store self) query 3 None s = (Ok (result :: results), s1) ->
  format_context 0 (result :: results) [] [] = Ok (context_parts, sources) ->
  gemini_model self = Some model ->
  let messages := build_messages (join (nl ++ nl) context_parts) query use_vision sources in
  let request := Gemini.Request
    (Gemini.Single (Gemini.Turn (lit "user")
       [Gemini.Text (user_prompt (join (nl ++ nl) context_parts) query)]))
    (Gemini.GenerationConfig 0.3 2048 (Some 0.95%float) (Some 40)) in
  exists answer,
    generate_response env self query use_vision s
    = (Ok (Response.Make answer sources (Some context_parts)), log_model_call request s1)
    /\ model_calls (log_model_call request s1) = model_calls s ++ [request].
Proof.
  intros Hsearch Hformat Hmodel messages request.
  destruct (search_returns env (vector_store self) query 3 None s)
    as (r & s' & H & Hcalls).
  rewrite Hsearch in H. injection H as _ <-.
  unfold generate_response, mbind at 1. rewrite Hsearch.
  unfold mbind at 1, lift. rewrite Hformat, Hmodel.
  unfold mbind, try_except, ask_model. rewrite find_user_message.
  unfold mbind, generate_content, sent_contents.
  cbn [Message.content]. fold request.
  assert (Hlog : model_calls (log_model_call request s1) = model_calls s ++ [request]).
  { unfold log_model_call. cbn [model_calls]. now rewrite Hcalls. }
  destruct (respond model s1 request) as [response_text|e].
  - destruct (Nat.eqb (length response_text) 0); unfold raise, ret; eauto.
  - unfold ret. eauto.
Qed.

(** Without a model handle the dictionary returned has no [context] entry,
    and the model is not called. No object built by [__init__] is in that
    case. *)
Lemma generate_response_without_model query use_vision s s1 result results
    context_parts sources :
  VectorStore.search env (vector_store self) query 3 None s = (Ok (result :: results), s1) ->
  format_context 0 (result :: results) [] [] = Ok (context_parts, sources) ->
  gemini_model self = None ->
  generate_response env self query use_vision s
  = (Ok (Response.Make
           (lit "Error: Gemini model is not available. Please check your API key and model configuration.")
           sources None), s1).
Proof.
  intros Hsearch Hformat Hmodel.
  unfold generate_response, mbind at 1. rewrite Hsearch.
  unfold mbind, lift. now rewrite Hformat, Hmodel.
Qed.

(** [generate_response], once the search is done, case by case. *)
Lemma generate_response_cases query use_vision s results s1 :
  VectorStore.search env (vector_store self) query 3 None s = (Ok results, s1) ->
  generate_response env self query use_vision s
  = match results with
    | [] =>
      (Ok (Response.Make
             (lit "I couldn't find any relevant information to answer your question.")
             [] (Some [])), s1)
    | _ :: _ =>
      match format_context 0 results [] [] with
      | Raise e => (Raise e, s1)
      | Ok (context_parts, sources) =>
        match gemini_model self with
        | None =>
          (Ok (Response.Make
                 (lit "Error: Gemini model is not available. Please check your API key and model configuration.")
                 sources None), s1)
        | Some model =>
          (Ok (Response.Make
                 (answer_of (respond model s1 (model_request context_parts query)))
                 sources (Some context_parts)),
           log_model_call (model_request context_parts query) s1)
        end
      end
    end.
Proof.
  intros Hsearch. unfold generate_response, mbind at 1. rewrite Hsearch.
  destruct results as [|result results]; [reflexivity|].
  unfold mbind at 1, lift.
  destruct (format_context 0 (result :: results) [] []) as [[context_parts sources]|e];
    [|reflexivity].
  destruct (gemini_model self) as [model|]; [|reflexivity].
  unfold mbind, try_except, ask_model. rewrite find_user_message.
  unfold mbind, generate_content, sent_contents. cbn [Message.content].
  fold (model_request context_parts query).
  destruct (respond model s1 (model_request context_parts query)) as [text|e];
    [|reflexivity].
  destruct text as [|c text]; reflexivity.
Qed.

(** The loop returns when the content of every result is a string. *)
Lemma format_context_returns results : forall i context_parts sources,
  Forall (fun r => exists text, SearchResult.content r = VStr text) results ->
  exists context_parts' sources',
    format_context i results context_parts sources = Ok (context_parts', sources').
Proof.
  induction results as [|result results IH]; intros i cps srcs H; cbn [format_context].
  - eauto.
  - apply Forall_cons in H as [(text & ->) H]. cbn [preview Py.bind]. now apply IH.
Qed.

End Answering.

(** ** Answering: the fields of a response *)

Section Constructed.

Import QueryProcessor.

Variable env : Env.
Variable startup : Startup.
Variable config : Config.t.
Variable vector_store : VectorStore.t.
Variable self : QueryProcessor.t.

(** The constructor stores a model handle or raises: an object it built
    has one. *)
Lemma __init___stores_model :
  __init__ startup config vector_store = Ok self ->
  exists model, self = Make vector_store (Some model) config.
Proof.
  unfold __init__.
  destruct (OpenAI startup (OPENAI_API_KEY startup)); [discriminate|].
  destruct (key_missing (GEMINI_API_KEY startup)); [discriminate|].
  destruct (genai_configure startup (GEMINI_API_KEY startup)); [discriminate|].
  destruct (genai_GenerativeModel startup GEMINI_MODEL) as [model|e]; cbn;
    [|discriminate].
  intros [= <-]. now exists model.
Qed.

(** What [search] makes of a match that holds text has a string as content. *)
Lemma format_match_text m :
  holds_text m ->
  exists text, SearchResult.content (VectorStore.format_match m) = VStr text.
Proof.
  intros H. unfold VectorStore.format_match. cbn [SearchResult.content].
  destruct (Pinecone.m_metadata m) as [md|] eqn:Hmd; unfold default; cbn [from_option id].
  - destruct (md !! "content") as [v|] eqn:Hv; [|eauto].
    exact (H md v Hmd Hv).
  - rewrite lookup_empty. eauto.
Qed.

(** C10: on a query processor that its constructor built, every response
    [generate_response] returns has the three fields, the answer, the
    sources and the context, for every query, every [use_vision] and every
    answer of the services: the return that leaves the context out is
    taken only without a model handle, and the constructor never leaves
    the object without one. And a response is returned, with its three
    fields, whenever the index answers with matches whose content is text,
    as the records of [upsert_documents] are. *)
Theorem generate_response_has_all_fields query use_vision s :
  __init__ startup config vector_store = Ok self ->
  (forall response s',
     generate_response env self query use_vision s = (Ok response, s') ->
     exists context_parts, Response.context response = Some context_parts)
  /\ (index_holds_text (VectorStore.index vector_store) ->
      exists answer sources context_parts s',
        generate_response env self query use_vision s
        = (Ok (Response.Make answer sources (Some context_parts)), s')).
Proof.
  intros Hbuilt. destruct (__init___stores_model Hbuilt) as (model & ->).
  destruct (get_embedding_returns env vector_store query s)
    as (embedding & s0 & Hemb & _).
  pose proof (search_cases env vector_store query 3 None s embedding s0 Hemb) as Hsearch.
  cbv zeta in Hsearch.
  set (q := Pinecone.Query embedding 3 None true) in Hsearch.
  split.
  - destruct (query_reply (VectorStore.index vector_store) s0 q) as [matches|e];
      rewrite (generate_response_cases env (Make vector_store (Some model) config)
                 query use_vision s _ _ Hsearch);
      cbn [gemini_model].
    + destruct (map VectorStore.format_match matches) as [|result results].
      * intros response s' [= <- _]. cbn. eauto.
      * destruct (format_context 0 (result :: results) [] [])
          as [[context_parts sources]|e]; [|discriminate].
        intros response s' [= <- _]. cbn. eauto.
    + intros response s' [= <- _]. cbn. eauto.
  - intros Htext.
    destruct (query_reply (VectorStore.index vector_store) s0 q) as [matches|e] eqn:Hreply;
      rewrite (generate_response_cases env (Make vector_store (Some model) config)
                 query use_vision s _ _ Hsearch);
      cbn [gemini_model]; [|eauto 6].
    assert (Hall : Forall (fun r => exists text, SearchResult.content r = VStr text)
                     (map VectorStore.format_match matches)).
    { apply Forall_map. eapply Forall_impl; [exact (Htext _ _ _ Hreply)|].
      intros m. apply format_match_text. }
    destruct (map VectorStore.format_match matches) as [|result results]; [eauto 6|].
    destruct (format_context_returns (result :: results) 0 [] [] Hall)
      as (context_parts & sources & ->).
    eauto 6.
Qed.

End Constructed.


(** ** The pipeline on the sample inputs *)

Lemma describe_image_removes_file_witness :
  extract_image working_env World.initial 7 = Ok [Byte.x89; Byte.x50; Byte.x4e; Byte.x47]
  /\ file_write working_env World.initial
       (DocumentProcessor.image_path_for failing_vision_processor 0 0)
       [Byte.x89; Byte.x50; Byte.x4e; Byte.x47] = Written
  /\ exists description s',
       DocumentProcessor.describe_image working_env failing_vision_processor 0 [] 0 7
         World.initial
       = (Ok ([] ++ [description]), s')
       /\ files s' !! DocumentProcessor.image_path_for failing_vision_processor 0 0 = None
       /\ files s' = delete (DocumentProcessor.image_path_for failing_vision_processor 0 0)
                       (files World.initial)
       /\ DocumentProcessor.describe_images working_env failing_vision_processor 0 [] 0
            (7 :: [8]) World.initial
          = DocumentProcessor.describe_images working_env failing_vision_processor 0
              ([] ++ [description]) (0 + 1) [8] s'.
Proof.
  split; [reflexivity|]. split; [reflexivity|].
  apply (describe_image_removes_file working_env failing_vision_processor
           0 [] 0 7 [8] World.initial [Byte.x89; Byte.x50; Byte.x4e; Byte.x47]);
    reflexivity.
Defined.

Lemma describe_image_leaves_file_witness :
  extract_image disk_full_env World.initial 7 = Ok [Byte.x89; Byte.x50; Byte.x4e; Byte.x47]
  /\ file_write disk_full_env World.initial
       (DocumentProcessor.image_path_for failing_vision_processor 0 0)
       [Byte.x89; Byte.x50; Byte.x4e; Byte.x47] = WriteRaises disk_full
  /\ exists s',
       DocumentProcessor.describe_image disk_full_env failing_vision_processor 0 [] 0 7
         World.initial = (Ok [], s')
       /\ files s' !! DocumentProcessor.image_path_for failing_vision_processor 0 0 <> None
       /\ (forall p, p <> DocumentProcessor.image_path_for failing_vision_processor 0 0 ->
                     files s' !! p = files World.initial !! p)
       /\ model_calls s' = model_calls World.initial
       /\ DocumentProcessor.describe_images disk_full_env failing_vision_processor 0 [] 0
            (7 :: [8]) World.initial
          = DocumentProcessor.describe_images disk_full_env failing_vision_processor 0
              [] (0 + 1) [8] s'.
Proof.
  split; [reflexivity|]. split; [reflexivity|].
  apply (describe_image_leaves_file disk_full_env failing_vision_processor
           0 [] 0 7 [8] World.initial [Byte.x89; Byte.x50; Byte.x4e; Byte.x47] disk_full);
    reflexivity.
Defined.

Lemma get_embedding_falls_back_witness :
  embedding_service_fails embedding_down_env World.initial chart_query
  /\ exists embedding s',
       VectorStore.get_embedding embedding_down_env (store_with failing_index)
         chart_query World.initial = (Ok embedding, s')
       /\ length embedding = Z.to_nat 768
       /\ embedding = next_draws embedding_down_env World.initial (Z.to_nat 768)
       /\ rng_draws s' = (rng_draws World.initial + Z.to_nat 768)%nat.
Proof.
  split; [exact I|].
  apply (get_embedding_falls_back embedding_down_env (store_with failing_index)
           chart_query World.initial).
  exact I.
Defined.

Lemma search_swallows_failure_witness :
  index_query_fails working_env (store_with failing_index) chart_query 3 None World.initial
  /\ exists s',
       VectorStore.search working_env (store_with failing_index) chart_query 3 None
         World.initial = (Ok [], s').
Proof.
  assert (H : index_query_fails working_env (store_with failing_index)
                chart_query 3 None World.initial).
  { do 3 eexists. split; reflexivity. }
  split; [exact H|].
  apply (proj1 (proj2 (search_swallows_failure working_env (store_with failing_index)
                         chart_query 3 None World.initial))).
  exact H.
Defined.

Lemma generate_response_without_results_witness :
  exists s1,
    VectorStore.search working_env (store_with (serving_index [])) chart_query 3 None
      World.initial = (Ok [], s1)
    /\ QueryProcessor.generate_response working_env
         (QueryProcessor.Make (store_with (serving_index [])) (Some failing_model)
            Config.default)
         chart_query true World.initial
       = (Ok (Response.Make
                (lit "I couldn't find any relevant information to answer your question.")
                [] (Some [])), s1)
    /\ model_calls s1 = model_calls World.initial.
Proof.
  eexists. split; [reflexivity|].
  apply (generate_response_without_results working_env
           (QueryProcessor.Make (store_with (serving_index [])) (Some failing_model)
              Config.default) chart_query true World.initial).
  reflexivity.
Defined.

Lemma generate_response_has_all_fields_witness :
  QueryProcessor.__init__ working_startup Config.default
    (store_with (serving_index [chart_match])) = Ok chart_processor
  /\ index_holds_text (VectorStore.index (store_with (serving_index [chart_match])))
  /\ (forall response s',
        QueryProcessor.generate_response working_env chart_processor chart_query true
          World.initial = (Ok response, s') ->
        exists context_parts, Response.context response = Some context_parts)
  /\ exists answer sources context_parts s',
       QueryProcessor.generate_response working_env chart_processor chart_query true
         World.initial
       = (Ok (Response.Make answer sources (Some context_parts)), s').
Proof.
  assert (Htext : index_holds_text
                    (VectorStore.index (store_with (serving_index [chart_match])))).
  { intros s q matches [= <-]. constructor; [|constructor].
    intros md v [= <-] Hv. vm_compute in Hv. injection Hv as <-. eauto. }
  split; [reflexivity|]. split; [exact Htext|].
  destruct (generate_response_has_all_fields working_env working_startup Config.default
              (store_with (serving_index [chart_match])) chart_processor chart_query true
              World.initial eq_refl) as [Hfields Hreturns].
  split; [exact Hfields|exact (Hreturns Htext)].
Defined.

Lemma upsert_documents_batches_witness :
  index_accepts (VectorStore.index (store_with (serving_index [])))
  /\ exists batches s',
       VectorStore.upsert_documents working_env (store_with (serving_index []))
         three_chunks 2 World.initial = (Ok tt, s')
       /\ upsert_calls s' = upsert_calls World.initial ++ batches
       /\ Forall2 (record_of working_env (store_with (serving_index [])))
            three_chunks (concat batches)
       /\ batched (Z.max 1 2) batches.
Proof.
  assert (H : index_accepts (VectorStore.index (store_with (serving_index []))))
    by (intros s vs; reflexivity).
  split; [exact H|].
  apply (upsert_documents_batches working_env (store_with (serving_index [])) 2 H
           three_chunks World.initial).
Defined.

(** C8's bound fails as worded: with [batch_size = 0] the one chunk is sent
    in a batch of one record, more than [batch_size]. *)
Lemma within_batch_size_fails :
  exists v s',
    VectorStore.upsert_documents working_env (store_with (serving_index []))
      [Chunk.Make 0 1 (lit "alpha") false] 0 World.initial = (Ok tt, s')
    /\ upsert_calls s' = [[v]]
    /\ ~ within_batch_size 0 (upsert_calls s').
Proof.
  do 2 eexists. split; [reflexivity|]. split; [reflexivity|].
  intros H. apply Forall_inv in H. simpl in H. lia.
Qed.

(** C1, on the sample query with [use_vision] set and a source that has
    images: the call reaches the model once, and the request it sends is
    the user turn alone. Neither the system instruction nor the added
    vision instruction occurs anywhere in it, although both are in the
    first of the turns gathered in [formatted_messages], which is never
    passed on. *)
Theorem generate_response_sends_user_turn_only :
  exists answer context_parts sources request s',
    QueryProcessor.generate_response working_env chart_processor chart_query true
      World.initial
    = (Ok (Response.Make answer sources (Some context_parts)), s')
    /\ existsb (fun src => truthy (Source.has_images src)) sources = true
    /\ model_calls s' = [request]
    /\ Gemini.turns (Gemini.req_contents request)
       = [Gemini.Turn (lit "user")
            [Gemini.Text
               (QueryProcessor.user_prompt
                  (join (QueryProcessor.nl ++ QueryProcessor.nl) context_parts)
                  chart_query)]]
    /\ mentions QueryProcessor.system_instruction request = false
    /\ mentions QueryProcessor.vision_instruction request = false
    /\ QueryProcessor.formatted_messages
         (QueryProcessor.build_messages
            (join (QueryProcessor.nl ++ QueryProcessor.nl) context_parts)
            chart_query true sources)
       = [Gemini.Turn (lit "user")
            [Gemini.Text (QueryProcessor.system_instruction
                          ++ QueryProcessor.vision_instruction)];
          Gemini.Turn (lit "model")
            [Gemini.Text (lit "I understand and will assist with your request.")];
          Gemini.Turn (lit "user")
            [Gemini.Text
               (QueryProcessor.user_prompt
                  (join (QueryProcessor.nl ++ QueryProcessor.nl) context_parts)
                  chart_query)]].
Proof.
  do 5 eexists. split; [vm_compute; reflexivity|].
  repeat split; vm_compute; reflexivity.
Qed.

(** A reply of the vision model made of white space only passes the
    emptiness test and is stripped to the empty string: the page C3 fails
    on is one [process_pdf] builds. *)
Example blank_reply_gives_blank_description :
  exists s',
    DocumentProcessor.process_pdf working_env
      (DocumentProcessor.Make Config.default (Some (replying_model (lit " "))))
      [DocumentProcessor.MkPdfPage (lit "x") [7]] World.initial
    = (Ok [blank_description_page], s')
    /\ files s' = ∅.
Proof. eexists. split; vm_compute; reflexivity. Qed.


(** * Further properties of the code *)

(** ** Chunking: ids, sizes and degenerate settings *)

Section ChunkingEdges.

Import DocumentProcessor.

Variable self : DocumentProcessor.t.

Local Notation "'C'" := (Config.CHUNK_SIZE (config self)).
Local Notation "'O'" := (Config.CHUNK_OVERLAP (config self)).

Lemma chunk_pages_ids pages : forall st st',
  chunk_pages self st pages = Ok st' ->
  snd st = Z.of_nat (length (fst st)) ->
  (forall k c, fst st !! k = Some c -> Chunk.chunk_id c = Z.of_nat k) ->
  forall k c, fst st' !! k = Some c -> Chunk.chunk_id c = Z.of_nat k.
Proof.
  induction pages as [|page pages IH]; simpl; intros st st' Hrun Hnext Hids.
  - injection Hrun as <-. exact Hids.
  - destruct (chunk_page self st page) as [st1|e] eqn:E1; simpl in Hrun; [|discriminate].
    apply chunk_page_inv in E1 as [starts ->].
    apply (IH _ _ Hrun); simpl.
    + rewrite length_app, length_imap, Hnext. lia.
    + intros k c Hk. apply lookup_app_Some in Hk as [Hk | [Hge Hk]].
      * now apply Hids.
      * rewrite list_lookup_imap in Hk.
        destruct (starts !! (k - length (fst st))%nat); simpl in Hk; [|discriminate].
        injection Hk as <-. simpl. rewrite Hnext. lia.
Qed.

(** X1: the chunk at position [k] of the output has id [k]: ids start at 0
    and go up by one over the whole document, across its pages. *)
Theorem chunk_document_ids pages chunks :
  chunk_document self pages = Ok chunks ->
  forall k c, chunks !! k = Some c -> Chunk.chunk_id c = Z.of_nat k.
Proof.
  unfold chunk_document. intros Hrun.
  destruct (chunk_pages self ([], 0) pages) as [st|e] eqn:E; simpl in Hrun; [|discriminate].
  injection Hrun as <-.
  apply (chunk_pages_ids _ _ _ E); [reflexivity|].
  intros k c Hk. destruct k; discriminate.
Qed.

(** With a positive step, each start offset lies inside the text. *)
Lemma chunk_starts_inside len k i :
  O < C ->
  chunk_starts self len !! k = Some i ->
  0 <= i < Z.of_nat len.
Proof.
  intros H. unfold chunk_starts.
  rewrite list_lookup_fmap. intros Hk.
  destruct (seq 0 _ !! k) as [j|] eqn:Ej; simpl in Hk; [|discriminate].
  injection Hk as <-.
  apply lookup_seq in Ej as [-> Hlt]. simpl in Hlt.
  rewrite range_length_ceil in Hlt by lia.
  assert (Hq := proj1 (ceil_div_spec (Z.of_nat len) (C - O) _ ltac:(lia)) eq_refl).
  assert (0 <= ceil_div (Z.of_nat len) (C - O)).
  { unfold ceil_div. apply Z.div_pos; lia. }
  nia.
Qed.

Lemma chunk_pages_source_inside pages : forall st st',
  O < C ->
  chunk_pages self st pages = Ok st' ->
  forall c, In c (fst st') ->
    In c (fst st)
    \/ exists page i,
         In page pages
         /\ 0 <= i < Z.of_nat (length (Page.full_content page))
         /\ Chunk.page_number c = Page.page_number page
         /\ Chunk.content c = slice (Page.full_content page) i (i + C).
Proof.
  induction pages as [|page pages IH]; simpl; intros st st' H Hrun c Hc.
  - injection Hrun as <-. now left.
  - rewrite chunk_page_emits in Hrun by lia. simpl in Hrun.
    destruct (IH _ _ H Hrun c Hc) as [Hin | (pg & i & Hpg & Hi & Hn & Hcontent)].
    + simpl in Hin. apply in_app_or in Hin as [Hin|Hin]; [now left|right].
      apply list_elem_of_In, elem_of_lookup_imap in Hin as (k & i & -> & Hk).
      exists page, i. repeat split; auto; eapply chunk_starts_inside; eauto.
    + right. exists pg, i. auto.
Qed.

(** X2: with a positive chunk size and a smaller overlap, no chunk is empty
    and none is longer than the chunk size. *)
Theorem chunk_content_bounds pages chunks c :
  0 < C -> O < C ->
  chunk_document self pages = Ok chunks ->
  In c chunks ->
  (1 <= length (Chunk.content c))%nat
  /\ Z.of_nat (length (Chunk.content c)) <= C.
Proof.
  unfold chunk_document. intros HC H Hrun Hc.
  destruct (chunk_pages self ([], 0) pages) as [st|e] eqn:E; simpl in Hrun; [|discriminate].
  injection Hrun as <-.
  destruct (chunk_pages_source_inside _ _ _ H E c Hc)
    as [[] | (page & i & _ & Hi & _ & ->)].
  rewrite slice_nonneg by lia.
  rewrite length_take, length_drop. lia.
Qed.

(** X3: when the overlap equals the chunk size the step is zero: the call
    raises [ValueError] on the first page, whatever its text, and only an
    empty document goes through. *)
Theorem chunk_document_zero_step pages :
  C = O ->
  match pages with
  | [] => chunk_document self pages = Ok []
  | _ :: _ => exists e, chunk_document self pages = Raise e
                        /\ exn_class e = "ValueError"
  end.
Proof.
  intros H. destruct pages as [|page pages]; [reflexivity|].
  unfold chunk_document. simpl. unfold chunk_page, range.
  rewrite H, Z.sub_diag. simpl. eexists. split; reflexivity.
Qed.

(** X4: when the overlap is larger than the chunk size the step is
    negative, the range of start offsets is empty, and the document gives
    no chunk at all, without an error. *)
Theorem chunk_document_negative_step pages :
  C < O -> chunk_document self pages = Ok [].
Proof.
  intros H. unfold chunk_document.
  assert (Hpages : forall st, chunk_pages self st pages = Ok st).
  { induction pages as [|page pages IH]; intros st; simpl; [reflexivity|].
    rewrite chunk_page_emits by lia. unfold chunk_starts, range_length.
    destruct (Z.ltb_spec 0 (C - O)); [lia|].
    destruct (Z.ltb_spec (Z.of_nat (length (Page.full_content page))) 0); [lia|].
    simpl. rewrite app_nil_r, Z.add_0_r, IH. now destruct st. }
  now rewrite Hpages.
Qed.

Lemma chunk_pages_numbers pages : forall st,
  O < C ->
  exists new,
    chunk_pages self st pages = Ok (fst st ++ new, snd st + Z.of_nat (length new))
    /\ map Chunk.page_number new
       = flat_map (fun page =>
                     repeat (Page.page_number page)
                       (Z.to_nat (ceil_div (Z.of_nat (length (Page.full_content page)))
                                           (C - O)))) pages.
Proof.
  induction pages as [|page pages IH]; intros st H; simpl.
  - exists []. rewrite app_nil_r, Z.add_0_r. now destruct st.
  - rewrite chunk_page_emits by lia. simpl.
    set (starts := chunk_starts self (length (Page.full_content page))).
    destruct (IH (fst st ++ imap (chunk_at self page (snd st)) starts,
                  snd st + Z.of_nat (length starts)) H) as (new & Hrun & Hnum).
    exists (imap (chunk_at self page (snd st)) starts ++ new).
    rewrite Hrun. simpl. split.
    + rewrite <- app_assoc, length_app, length_imap. do 2 f_equal. lia.
    + rewrite map_app, Hnum. f_equal.
      assert (Hlen : length starts
                     = Z.to_nat (ceil_div (Z.of_nat (length (Page.full_content page))) (C - O))).
      { pose proof (chunk_starts_length self (length (Page.full_content page)) H).
        fold starts in H0. lia. }
      rewrite <- Hlen. clear. generalize (snd st).
      induction starts as [|i starts IHs]; intros cid; [reflexivity|].
      rewrite imap_cons. simpl. f_equal.
      rewrite <- (IHs (cid + 1)). f_equal. apply imap_ext.
      intros k x _. unfold chunk_at. simpl. f_equal. lia.
Qed.

(** X5: the chunks come out page by page, in the order of the pages: the
    page numbers of the output are the number of each page repeated once
    per chunk of that page, [ceil(L / (C - O))] times for a text of length
    [L]. *)
Theorem chunk_document_page_numbers pages :
  O < C ->
  exists chunks,
    chunk_document self pages = Ok chunks
    /\ map Chunk.page_number chunks
       = flat_map (fun page =>
                     repeat (Page.page_number page)
                       (Z.to_nat (ceil_div (Z.of_nat (length (Page.full_content page)))
                                           (C - O)))) pages.
Proof.
  intros H. unfold chunk_document.
  destruct (chunk_pages_numbers pages ([], 0) H) as (new & Hrun & Hnum).
  rewrite Hrun. simpl. eauto.
Qed.

End ChunkingEdges.

(** ** Describing the images of a page *)

Section Describing.

Import DocumentProcessor.

Variable env : Env.
Variable self : DocumentProcessor.t.

(** [_get_image_description] asks the model at most once. *)
Lemma _get_image_description_calls image_path s :
  exists description s',
    _get_image_description env self image_path s = (Ok description, s')
    /\ (model_calls s' = model_calls s \/ exists r, model_calls s' = model_calls s ++ [r]).
Proof.
  unfold _get_image_description.
  destruct (gemini_model self) as [model|]; [|unfold ret; eauto].
  unfold try_except, mbind, read_binary, generate_content, raise, ret.
  destruct (files s !! image_path) as [img|]; [|eauto].
  destruct (encode_jpeg env s img) as [data|e]; [|eauto].
  destruct (respond model s _) as [response_text|e]; [|simpl; eauto 6].
  destruct (Nat.eqb (length response_text) 0); simpl; eauto 6.
Qed.


(** One turn of the loop never raises: it keeps the descriptions or adds
    one, and asks the model at most once. *)
Lemma describe_image_step page_num descriptions img_index xref s :
  exists descriptions' s',
    describe_image env self page_num descriptions img_index xref s
    = (Ok descriptions', s')
    /\ (descriptions' = descriptions \/ exists d, descriptions' = descriptions ++ [d])
    /\ (model_calls s' = model_calls s \/ exists r, model_calls s' = model_calls s ++ [r]).
Proof.
  unfold describe_image, try_except at 1, mbind at 1.
  destruct (extract_image env s xref) as [image_bytes|e]; [|unfold ret; eauto 10].
  unfold mbind at 1, write_binary.
  set (path := image_path_for self page_num img_index).
  destruct (file_write env s path image_bytes).
  - unfold ret. do 2 eexists. split; [reflexivity|]. split; now left.
  - unfold ret. do 2 eexists. split; [reflexivity|]. split; now left.
  - destruct (_get_image_description_calls path (set_files (insert path image_bytes) s))
      as (d & s2 & Hd & Hcalls).
    unfold mbind at 1. rewrite Hd. simpl in Hcalls.
    unfold try_except, mbind, os_remove, ret.
    destruct (files s2 !! path); do 2 eexists;
      (split; [reflexivity|]); (split; [right; eauto|]); exact Hcalls.
Qed.

Lemma describe_images_bound page_num image_list : forall descriptions img_index s,
  exists descriptions' s',
    describe_images env self page_num descriptions img_index image_list s
    = (Ok descriptions', s')
    /\ (length descriptions <= length descriptions'
        <= length descriptions + length image_list)%nat
    /\ (length (model_calls s) <= length (model_calls s')
        <= length (model_calls s) + length image_list)%nat.
Proof.
  induction image_list as [|xref rest IH]; intros descriptions img_index s; simpl.
  - unfold ret. do 2 eexists. split; [reflexivity|]. lia.
  - destruct (describe_image_step page_num descriptions img_index xref s)
      as (ds1 & s1 & Hstep & Hds & Hcalls).
    destruct (IH ds1 (img_index + 1) s1) as (ds2 & s2 & Hrun & Hlen & Hm).
    unfold mbind. rewrite Hstep, Hrun. do 2 eexists. split; [reflexivity|].
    assert (length descriptions <= length ds1 <= length descriptions + 1)%nat.
    { destruct Hds as [-> | [d ->]]; [lia|]. rewrite length_app. simpl. lia. }
    assert (length (model_calls s) <= length (model_calls s1)
            <= length (model_calls s) + 1)%nat.
    { destruct Hcalls as [-> | [r ->]]; [lia|]. rewrite length_app. simpl. lia. }
    lia.
Qed.

(** X7: [_extract_and_describe_images] never raises, whatever fails for an
    image: it returns at most one description per image of the page, and
    asks the model at most once per image. *)
Theorem _extract_and_describe_images_bound page page_num s :
  exists descriptions s',
    _extract_and_describe_images env self page page_num s = (Ok descriptions, s')
    /\ (length descriptions <= length (get_images page))%nat
    /\ (length (model_calls s) <= length (model_calls s')
        <= length (model_calls s) + length (get_images page))%nat.
Proof.
  unfold _extract_and_describe_images.
  destruct (get_images page) as [|xref rest] eqn:E.
  - unfold ret. do 2 eexists. split; [reflexivity|]. simpl. lia.
  - destruct (describe_images_bound page_num (xref :: rest) [] 0 s)
      as (ds & s' & Hrun & Hlen & Hm).
    rewrite Hrun. do 2 eexists. split; [reflexivity|]. simpl in *. lia.
Qed.

Section AllSaved.

(** Every image can be extracted and saved. *)
Hypothesis extracts : forall s xref, exists image_bytes, extract_image env s xref = Ok image_bytes.
Hypothesis writes : forall s path image_bytes, file_write env s path image_bytes = Written.

Lemma describe_image_saved page_num descriptions img_index xref s :
  exists description s',
    describe_image env self page_num descriptions img_index xref s
    = (Ok (descriptions ++ [description]), s')
    /\ files s' = delete (image_path_for self page_num img_index) (files s).
Proof.
  destruct (extracts s xref) as [image_bytes Hextract].
  set (path := image_path_for self page_num img_index).
  destruct (_get_image_description_returns env self path
              (set_files (insert path image_bytes) s))
    as (description & s2 & Hd & Hfiles).
  assert (Hsaved : files s2 !! path = Some image_bytes).
  { rewrite Hfiles. simpl. apply lookup_insert_eq. }
  exists description, (set_files (delete path) s2). split.
  - unfold describe_image, try_except, mbind, write_binary, os_remove, ret.
    fold path. cbv beta. rewrite Hextract, writes, Hd, Hsaved. reflexivity.
  - simpl. rewrite Hfiles. simpl. apply delete_insert_eq.
Qed.

Lemma image_paths_S page_num first n :
  image_paths self page_num first (S n)
  = image_path_for self page_num first :: image_paths self page_num (first + 1) n.
Proof.
  unfold image_paths. simpl. rewrite Z.add_0_r. f_equal.
  rewrite <- seq_shift, map_map. apply map_ext. intros k. f_equal. lia.
Qed.

Lemma describe_images_saved page_num image_list : forall descriptions img_index s,
  exists new s',
    describe_images env self page_num descriptions img_index image_list s
    = (Ok (descriptions ++ new), s')
    /\ length new = length image_list
    /\ (forall p, In p (image_paths self page_num img_index (length image_list)) ->
                  files s' !! p = None)
    /\ (forall p, ~ In p (image_paths self page_num img_index (length image_list)) ->
                  files s' !! p = files s !! p).
Proof.
  induction image_list as [|xref rest IH]; intros descriptions img_index s.
  - exists [], s. simpl. unfold ret. rewrite app_nil_r. repeat split; auto.
    intros p [].
  - destruct (describe_image_saved page_num descriptions img_index xref s)
      as (d & s1 & Hstep & Hfiles).
    destruct (IH (descriptions ++ [d]) (img_index + 1) s1)
      as (new & s2 & Hrun & Hlen & Hgone & Hkept).
    exists (d :: new), s2. simpl describe_images. unfold mbind.
    rewrite Hstep, Hrun, <- app_assoc. simpl length. rewrite image_paths_S.
    split; [reflexivity|]. split; [now rewrite Hlen|]. split.
    + intros p [<- | Hin]; [|now apply Hgone].
      destruct (decide (image_path_for self page_num img_index
                        ∈ image_paths self page_num (img_index + 1) (length rest)))
        as [Hin|Hout].
      * apply Hgone. now apply list_elem_of_In.
      * rewrite Hkept, Hfiles; [apply lookup_delete_eq|].
        intros Hin. apply Hout. now apply list_elem_of_In.
    + intros p Hout. rewrite Hkept by (intros Hin; apply Hout; now right).
      rewrite Hfiles. apply lookup_delete_ne. intros Heq. apply Hout. now left.
Qed.

(** X8: when every image of the page can be extracted and saved, the page
    gets exactly one description per image, and afterwards none of the
    temporary files of the page exists while every other file is as it
    was, whatever the model answered. *)
Theorem _extract_and_describe_images_cleans_up page page_num s :
  exists descriptions s',
    _extract_and_describe_images env self page page_num s = (Ok descriptions, s')
    /\ length descriptions = length (get_images page)
    /\ (forall p, In p (image_paths self page_num 0 (length (get_images page))) ->
                  files s' !! p = None)
    /\ (forall p, ~ In p (image_paths self page_num 0 (length (get_images page))) ->
                  files s' !! p = files s !! p).
Proof.
  unfold _extract_and_describe_images.
  destruct (get_images page) as [|xref rest] eqn:E.
  - exists [], s. unfold ret. simpl. repeat split; auto. intros p [].
  - destruct (describe_images_saved page_num (xref :: rest) [] 0 s)
      as (new & s' & Hrun & Hlen & Hgone & Hkept).
    rewrite Hrun. exists new, s'. auto.
Qed.

End AllSaved.

(** One page of [process_pdf]. *)
Lemma process_page_step page_num page s :
  exists content s',
    process_page env self page_num page s = (Ok content, s')
    /\ processed_from page_num page content.
Proof.
  assert (Hdescribed : exists ds s',
            _extract_and_describe_images env self page page_num s = (Ok ds, s')
            /\ (length ds <= length (get_images page))%nat).
  { unfold _extract_and_describe_images.
    destruct (get_images page) as [|xref rest] eqn:E.
    - exists [], s. split; [reflexivity | simpl; lia].
    - destruct (describe_images_bound page_num (xref :: rest) [] 0 s)
        as (ds & s' & Hrun & Hlen & _).
      exists ds, s'. split; [exact Hrun | simpl in *; lia]. }
  destruct Hdescribed as (ds & s' & Hrun & Hlen).
  unfold process_page, mbind. rewrite Hrun. unfold ret.
  do 2 eexists. split; [reflexivity|].
  unfold processed_from, page_header. simpl. repeat split.
  destruct ds as [|d ds].
  - exists [], []. rewrite app_nil_r, <- !app_assoc. repeat split; auto.
  - eexists (d :: ds), _. rewrite <- !app_assoc. repeat split; [exact Hlen | discriminate].
Qed.

Lemma process_pages_spec pages : forall page_num processed s,
  exists new s',
    process_pages env self page_num pages processed s = (Ok (processed ++ new), s')
    /\ length new = length pages
    /\ forall k page, pages !! k = Some page ->
         exists content, new !! k = Some content
                         /\ processed_from (page_num + Z.of_nat k) page content.
Proof.
  induction pages as [|page pages IH]; intros page_num processed s; simpl.
  - exists [], s. unfold ret. rewrite app_nil_r. repeat split; auto.
    intros k page Hk. destruct k; discriminate.
  - destruct (process_page_step page_num page s) as (content & s1 & Hstep & Hcontent).
    destruct (IH (page_num + 1) (processed ++ [content]) s1)
      as (new & s2 & Hrun & Hlen & Hall).
    exists (content :: new), s2. unfold mbind. rewrite Hstep, Hrun, <- app_assoc.
    split; [reflexivity|]. split; [simpl; now rewrite Hlen|].
    intros [|k] pg Hk; simpl in Hk.
    + injection Hk as <-. exists content. rewrite Z.add_0_r. auto.
    + destruct (Hall k pg Hk) as (c & Hc & Hfrom). exists c. split; [exact Hc|].
      replace (page_num + Z.of_nat (S k)) with (page_num + 1 + Z.of_nat k) by lia.
      exact Hfrom.
Qed.

(** X9: [process_pdf] never raises and gives one page per page of the
    document, in order: the page at position [k] has number [k + 1], the
    text of the PDF page, at most one description per image, and a content
    that opens with "Page k+1", a blank line and the text, followed by
    nothing when there is no description. *)
Theorem process_pdf_pages pages s :
  exists processed s',
    process_pdf env self pages s = (Ok processed, s')
    /\ length processed = length pages
    /\ forall k page, pages !! k = Some page ->
         exists content, processed !! k = Some content
                         /\ processed_from (Z.of_nat k) page content.
Proof.
  destruct (process_pages_spec pages 0 [] s) as (new & s' & Hrun & Hlen & Hall).
  exists new, s'. unfold process_pdf. rewrite Hrun. repeat split; auto.
Qed.

Lemma process_pages_text_only pages : forall (n : nat) processed s,
  Forall (fun page => get_images page = []) pages ->
  process_pages env self (Z.of_nat n) pages processed s
  = (Ok (processed ++ imap (fun k => text_only_page (n + k)) pages), s).
Proof.
  induction pages as [|page pages IH]; intros n processed s Hall;
    cbn [process_pages].
  - unfold ret. simpl. now rewrite app_nil_r.
  - apply Forall_cons in Hall as [Hpage Hall].
    assert (Hstep : process_page env self (Z.of_nat n) page s
                    = (Ok (text_only_page n page), s)).
    { unfold process_page, mbind, _extract_and_describe_images. rewrite Hpage.
      unfold ret, text_only_page, page_header. now rewrite <- !app_assoc. }
    unfold mbind. rewrite Hstep.
    replace (Z.of_nat n + 1) with (Z.of_nat (S n)) by lia.
    rewrite (IH (S n) _ _ Hall), <- app_assoc. do 3 f_equal.
    rewrite imap_cons, Nat.add_0_r. cbn [app]. f_equal.
    apply imap_ext. intros k pg _. simpl. f_equal. lia.
Qed.

(** X10: on a document whose pages have no image, [process_pdf] asks
    nothing of the outside world: the state is unchanged, and each page is
    its number, its text, an empty list of descriptions and the header
    followed by the text. *)
Theorem process_pdf_text_only pages s :
  Forall (fun page => get_images page = []) pages ->
  process_pdf env self pages s = (Ok (imap text_only_page pages), s).
Proof.
  intros Hall. unfold process_pdf.
  exact (process_pages_text_only pages 0 [] s Hall).
Qed.

End Describing.

(** ** Requests to the embedding service and to the index *)

Section Requests.

Import VectorStore.

Variable env : Env.
Variable self : VectorStore.t.

Lemma text_sent_take text : text_sent text = take (Z.to_nat 10000) text.
Proof.
  unfold text_sent. destruct (Z.ltb_spec 10000 (Z.of_nat (length text))).
  - now rewrite prefix_take by lia.
  - symmetry. apply take_ge. lia.
Qed.

(** What a call of [get_embedding] leaves behind. *)
Lemma get_embedding_effect text s :
  exists embedding s',
    get_embedding env self text s = (Ok embedding, s')
    /\ embed_calls s' = embed_calls s ++ [text_sent text]
    /\ files s' = files s
    /\ model_calls s' = model_calls s
    /\ upsert_calls s' = upsert_calls s
    /\ query_calls s' = query_calls s.
Proof.
  rewrite get_embedding_cases.
  destruct (embed_content env s (text_sent text)) as [result|e];
    [destruct (result !! "embedding")|]; do 2 eexists; repeat split.
Qed.

(** X11: [get_embedding] makes exactly one request to the embedding
    service, for the first 10000 characters of the text; when the service
    answers with an embedding, that vector is returned as it is and no
    random number is drawn. *)
Theorem get_embedding_request text s :
  exists embedding s',
    get_embedding env self text s = (Ok embedding, s')
    /\ embed_calls s' = embed_calls s ++ [take (Z.to_nat 10000) text]
    /\ (forall result answer,
          embed_content env s (take (Z.to_nat 10000) text) = Ok result ->
          result !! "embedding" = Some answer ->
          embedding = answer /\ rng_draws s' = rng_draws s).
Proof.
  rewrite get_embedding_cases, <- text_sent_take.
  destruct (embed_content env s (text_sent text)) as [result|e].
  - destruct (result !! "embedding") as [answer|] eqn:E.
    + do 2 eexists. split; [reflexivity|]. split; [reflexivity|].
      intros r a [= <-] Ha. rewrite E in Ha. injection Ha as <-. auto.
    + do 2 eexists. split; [reflexivity|]. split; [reflexivity|].
      intros r a [= <-] Ha. rewrite E in Ha. discriminate.
  - do 2 eexists. split; [reflexivity|]. split; [reflexivity|].
    intros r a Hr. discriminate.
Qed.

(** The state [search] ends in: the one after the embedding, with the
    query logged. *)
Lemma search_state query top_k filter_conditions s :
  exists results embedding s1,
    get_embedding env self query s = (Ok embedding, s1)
    /\ search env self query top_k filter_conditions s
       = (Ok results,
          log_query_call (Pinecone.Query embedding top_k filter_conditions true) s1).
Proof.
  destruct (get_embedding_effect query s) as (v & s1 & Hemb & _).
  rewrite (search_cases _ _ _ _ _ _ _ _ Hemb).
  destruct (query_reply _ _ _); eauto.
Qed.

(** X12: [search] makes one request to the embedding service and one query
    to the index, with the [top_k] and the filter it was given and the
    metadata asked for; it never raises, and it touches neither the files,
    nor the model, nor the records of the index. *)
Theorem search_effect query top_k filter_conditions s :
  exists results s' vector,
    search env self query top_k filter_conditions s = (Ok results, s')
    /\ embed_calls s' = embed_calls s ++ [take (Z.to_nat 10000) query]
    /\ query_calls s'
       = query_calls s ++ [Pinecone.Query vector top_k filter_conditions true]
    /\ files s' = files s
    /\ model_calls s' = model_calls s
    /\ upsert_calls s' = upsert_calls s.
Proof.
  destruct (search_state query top_k filter_conditions s)
    as (results & v & s1 & Hemb & Hsearch).
  destruct (get_embedding_effect query s)
    as (v' & s1' & Hemb' & Hembed & Hfiles & Hmodel & Hups & Hq).
  rewrite Hemb in Hemb'. injection Hemb' as <- <-.
  do 2 eexists. exists v. split; [exact Hsearch|]. simpl.
  rewrite <- text_sent_take, Hq. auto.
Qed.

(** X13: when the index answers the query, [search] returns one result per
    match, in the order of the matches, each with the id and the score of
    its match; the content of a result is the "content" entry of the
    metadata, and the empty string when the match has no metadata or no
    such entry. *)
Theorem search_results_of_matches query top_k filter_conditions s embedding s1 matches :
  get_embedding env self query s = (Ok embedding, s1) ->
  query_reply (index self) s1
    (Pinecone.Query embedding top_k filter_conditions true) = Ok matches ->
  exists results s',
    search env self query top_k filter_conditions s = (Ok results, s')
    /\ Forall2 result_of matches results.
Proof.
  intros Hemb Hreply.
  rewrite (search_cases _ _ _ _ _ _ _ _ Hemb), Hreply.
  do 2 eexists. split; [reflexivity|].
  clear. induction matches as [|m matches IH]; simpl; constructor; [|exact IH].
  unfold result_of, format_match. simpl. repeat split.
  destruct (Pinecone.m_metadata m); simpl; [reflexivity|].
  now rewrite lookup_empty.
Qed.

Section Refusing.

Variable batch_size : Z.
Variable e : exn.

Hypothesis refuses : index_refuses (index self) e.

Lemma upsert_step_refused vectors doc s :
  exists v s1,
    record_of env self doc v
    /\ embed_calls s1 = embed_calls s ++ [text_sent (Chunk.content doc)]
    /\ if batch_size <=? Z.of_nat (length (vectors ++ [v]))
       then upsert_step env self batch_size vectors doc s
            = (Raise e, log_upsert_call (vectors ++ [v]) s1)
            /\ upsert_calls s1 = upsert_calls s
       else upsert_step env self batch_size vectors doc s = (Ok (vectors ++ [v]), s1)
            /\ upsert_calls s1 = upsert_calls s.
Proof.
  destruct (get_embedding_effect (Chunk.content doc) s)
    as (embedding & s1 & Hemb & Hembed & _ & _ & Hups & _).
  set (v := vector_of doc embedding).
  assert (Hstep : upsert_step env self batch_size vectors doc s
                  = if batch_size <=? Z.of_nat (length (vectors ++ [v]))
                    then (Raise e, log_upsert_call (vectors ++ [v]) s1)
                    else (Ok (vectors ++ [v]), s1)).
  { unfold upsert_step, mbind at 1. rewrite Hemb. cbv zeta. fold v.
    destruct (batch_size <=? Z.of_nat (length (vectors ++ [v]))); [|reflexivity].
    unfold mbind, index_upsert. now rewrite refuses. }
  exists v, s1.
  split; [eapply vector_of_record; eassumption|]. split; [assumption|].
  rewrite Hstep. destruct (batch_size <=? _); auto.
Qed.

Lemma upsert_loop_refused documents : forall vectors s,
  exists records s',
    Forall2 (record_of env self) (take (length records) documents) records
    /\ length (embed_calls s') = (length (embed_calls s) + length records)%nat
    /\ ((upsert_loop env self batch_size vectors documents s
         = (Ok (vectors ++ records), s')
         /\ length records = length documents
         /\ upsert_calls s' = upsert_calls s)
        \/ (upsert_loop env self batch_size vectors documents s = (Raise e, s')
            /\ upsert_calls s' = upsert_calls s ++ [vectors ++ records]
            /\ records <> [])).
Proof.
  induction documents as [|doc documents IH]; intros vectors s.
  - exists [], s. simpl. unfold ret. rewrite app_nil_r.
    split; [constructor|]. split; [lia|]. left. auto.
  - destruct (upsert_step_refused vectors doc s) as (v & s1 & Hrec & Hembed & Hstep).
    destruct (batch_size <=? Z.of_nat (length (vectors ++ [v]))).
    + destruct Hstep as [Hstep Hups].
      exists [v], (log_upsert_call (vectors ++ [v]) s1). simpl.
      split; [constructor; [exact Hrec | constructor]|].
      split; [rewrite Hembed, length_app; simpl; lia|].
      right. unfold mbind. rewrite Hstep. simpl. rewrite Hups.
      repeat split. discriminate.
    + destruct Hstep as [Hstep Hups].
      destruct (IH (vectors ++ [v]) s1) as (records & s' & Hrecs & Hcount & Hrun).
      exists (v :: records), s'. simpl.
      split; [constructor; assumption|].
      split; [rewrite Hcount, Hembed, length_app; simpl; lia|].
      unfold mbind. rewrite Hstep. rewrite <- app_assoc in Hrun. simpl in Hrun.
      destruct Hrun as [(Hrun & Hlen & Hu) | (Hrun & Hu & Hne)].
      * left. rewrite Hrun, Hu, Hups, Hlen. auto.
      * right. rewrite Hrun, Hu, Hups. repeat split. discriminate.
Qed.

(** X14: when the index refuses the batches it is sent, [upsert_documents]
    on a non-empty list raises the exception of the index after a single
    call to it; the batch of that call holds the records of the first
    chunks of the list, and the chunks after them were not even sent to
    the embedding service. *)
Theorem upsert_documents_refused documents s :
  documents <> [] ->
  exists batch s',
    upsert_documents env self documents batch_size s = (Raise e, s')
    /\ upsert_calls s' = upsert_calls s ++ [batch]
    /\ batch <> []
    /\ Forall2 (record_of env self) (take (length batch) documents) batch
    /\ length (embed_calls s') = (length (embed_calls s) + length batch)%nat.
Proof.
  intros Hne.
  destruct (upsert_loop_refused documents [] s)
    as (records & s1 & Hrecs & Hcount & [(Hrun & Hlen & Hu) | (Hrun & Hu & Hnil)]).
  - simpl in Hrun. exists records, (log_upsert_call records s1).
    unfold upsert_documents, mbind. rewrite Hrun.
    destruct records as [|v records].
    + destruct documents; [contradiction | discriminate].
    + unfold index_upsert. rewrite refuses. simpl. rewrite Hu.
      repeat split; auto; discriminate.
  - simpl in Hu. exists records, s1.
    unfold upsert_documents, mbind. rewrite Hrun. auto.
Qed.

End Refusing.

Section Accepting.

Variable batch_size : Z.

Hypothesis accepts : index_accepts (index self).

Lemma concat_full_length (m : Z) (full : list (list Pinecone.vector)) :
  Forall (fun b => Z.of_nat (length b) = m) full ->
  Z.of_nat (length (concat full)) = Z.of_nat (length full) * m.
Proof.
  induction 1 as [|b full Hb _ IH]; simpl; [lia|].
  rewrite length_app. lia.
Qed.

(** X15: when the index takes every batch, [upsert_documents] on [n] chunks
    makes [ceil(n / max(1, batch_size))] calls to the index. *)
Theorem upsert_documents_call_count documents s :
  exists s',
    upsert_documents env self documents batch_size s = (Ok tt, s')
    /\ Z.of_nat (length (upsert_calls s'))
       = Z.of_nat (length (upsert_calls s))
         + ceil_div (Z.of_nat (length documents)) (Z.max 1 batch_size).
Proof.
  destruct (upsert_loop_spec env self batch_size accepts documents [] s)
    as (full & records & vectors' & s1 & Hrun & Hups & Hcat & Hrecs & Hfull & Hp);
    [simpl; lia|].
  simpl in Hcat. subst records.
  apply Forall2_length in Hrecs. rewrite length_app in Hrecs.
  pose proof (concat_full_length _ _ Hfull) as Hlen.
  set (m := Z.max 1 batch_size) in *.
  unfold upsert_documents, mbind. rewrite Hrun.
  destruct vectors' as [|v vectors'].
  - exists s1. unfold ret. split; [reflexivity|].
    rewrite Hups, length_app. simpl in Hrecs.
    assert (ceil_div (Z.of_nat (length documents)) m = Z.of_nat (length full)).
    { apply ceil_div_spec; [lia|]. nia. }
    lia.
  - exists (log_upsert_call (v :: vectors') s1).
    unfold index_upsert. rewrite accepts. split; [reflexivity|].
    simpl upsert_calls. rewrite Hups, !length_app. simpl length in *.
    assert (ceil_div (Z.of_nat (length documents)) m = Z.of_nat (length full) + 1).
    { apply ceil_div_spec; [lia|]. nia. }
    lia.
Qed.

End Accepting.

End Requests.

(** ** Answering: shapes, failures and effects *)

Section Responding.

Import QueryProcessor.

Variable env : Env.
Variable self : QueryProcessor.t.

(** The loop over the search results: it adds one context string and one
    source per result, in order, each made of its own result. *)
Lemma format_context_spec results : forall (i : nat) context_parts sources
    context_parts' sources',
  format_context (Z.of_nat i) results context_parts sources = Ok (context_parts', sources') ->
  context_parts' = context_parts ++ imap (fun k => context_part (i + k)) results
  /\ exists added, sources' = sources ++ added /\ Forall2 source_of results added.
Proof.
  induction results as [|result results IH]; intros i cps srcs cps' srcs' H.
  - injection H as <- <-. rewrite !app_nil_r. split; [reflexivity|].
    exists []. rewrite app_nil_r. split; [reflexivity|constructor].
  - cbn [format_context] in H.
    destruct (SearchResult.content result) as [| | |text] eqn:Hcontent;
      cbn [preview Py.bind] in H; try discriminate.
    replace (Z.of_nat i + 1) with (Z.of_nat (S i)) in H by lia.
    apply IH in H as (-> & added & -> & Hadded). split.
    + rewrite <- app_assoc. f_equal. cbn [app imap]. f_equal.
      * unfold context_part, page_of. rewrite Hcontent, Nat.add_0_r.
        replace (Z.of_nat (S i)) with (Z.of_nat i + 1) by lia.
        now rewrite <- !app_assoc.
      * apply imap_ext. intros k r _. cbn. now rewrite Nat.add_succ_r.
    + eexists. rewrite <- app_assoc. split; [reflexivity|].
      constructor; [|exact Hadded].
      split; [reflexivity|]. split; [|reflexivity].
      exists text. split; [exact Hcontent|]. cbn [Source.content].
      now rewrite (prefix_take text 500) by discriminate.
Qed.

Lemma format_context_raises results : forall i context_parts sources,
  Exists content_not_string results ->
  exists e, format_context i results context_parts sources = Raise e
            /\ exn_class e = "TypeError".
Proof.
  induction results as [|result results IH]; intros i cps srcs H;
    [inversion H|].
  simpl. destruct (SearchResult.content result) as [| | |text] eqn:E; simpl;
    try (eexists; split; reflexivity).
  apply Exists_cons in H as [H|H]; [now destruct (H text)|].
  now apply IH.
Qed.

(** X16: whenever [generate_response] returns, its sources are the sources
    of the search results, one per result and in their order: each has the
    page of its result, the first 500 characters of its content followed by
    an ellipsis, and its image flag. When the response has a context, it
    holds the context strings of the results, in the same order. *)
Theorem generate_response_sources query use_vision s results s1 response s' :
  VectorStore.search env (vector_store self) query 3 None s = (Ok results, s1) ->
  generate_response env self query use_vision s = (Ok response, s') ->
  Forall2 source_of results (Response.sources response)
  /\ forall context_parts, Response.context response = Some context_parts ->
                           context_parts = imap context_part results.
Proof.
  intros Hsearch. rewrite (generate_response_cases _ _ _ _ _ _ _ Hsearch).
  destruct results as [|result results].
  - intros [= <- _]. cbn. split; [constructor|]. now intros cps [= <-].
  - destruct (format_context 0 (result :: results) [] [])
      as [[context_parts sources]|e] eqn:E; [|discriminate].
    apply (format_context_spec _ 0%nat) in E as (-> & added & -> & Hadded).
    destruct (gemini_model self); intros [= <- _]; cbn [Response.sources Response.context];
      (split; [exact Hadded|]).
    + now intros cps [= <-].
    + discriminate.
Qed.

(** X17: when the content of a search result is not a string, the preview
    cannot be cut from it: [generate_response] raises [TypeError] to its
    caller, in the state the search left, so before any call to the model. *)
Theorem generate_response_type_error query use_vision s results s1 :
  VectorStore.search env (vector_store self) query 3 None s = (Ok results, s1) ->
  Exists content_not_string results ->
  exists e,
    generate_response env self query use_vision s = (Raise e, s1)
    /\ exn_class e = "TypeError"
    /\ model_calls s1 = model_calls s.
Proof.
  intros Hsearch Hbad. rewrite (generate_response_cases _ _ _ _ _ _ _ Hsearch).
  destruct (format_context_raises results 0 [] [] Hbad) as (e & Hraise & Hclass).
  destruct results as [|result results]; [inversion Hbad|].
  rewrite Hraise. exists e. repeat split; auto.
  destruct (search_state env (vector_store self) query 3 None s)
    as (r & v & s0 & Hemb & Hs).
  rewrite Hsearch in Hs. injection Hs as _ ->. simpl.
  destruct (get_embedding_effect env (vector_store self) query s)
    as (v' & s0' & Hemb' & _ & _ & Hmodel & _).
  rewrite Hemb in Hemb'. injection Hemb' as _ <-. exact Hmodel.
Qed.

(** X18: a call of [generate_response] makes one query to the index, for 3
    results and without a filter, and at most one call to the model; it
    sends no record to the index and touches no file. *)
Theorem generate_response_effect query use_vision s :
  exists outcome s' vector,
    generate_response env self query use_vision s = (outcome, s')
    /\ query_calls s' = query_calls s ++ [Pinecone.Query vector 3 None true]
    /\ (model_calls s' = model_calls s
        \/ exists request, model_calls s' = model_calls s ++ [request])
    /\ upsert_calls s' = upsert_calls s
    /\ files s' = files s.
Proof.
  destruct (search_state env (vector_store self) query 3 None s)
    as (results & v & s0 & Hemb & Hsearch).
  destruct (get_embedding_effect env (vector_store self) query s)
    as (v' & s0' & Hemb' & _ & Hfiles & Hmodel & Hups & Hq).
  rewrite Hemb in Hemb'. injection Hemb' as <- <-.
  rewrite (generate_response_cases _ _ _ _ _ _ _ Hsearch).
  assert (Hdone : forall outcome : result Response.t,
    exists o s' vector,
      (outcome, log_query_call (Pinecone.Query v 3 None true) s0) = (o, s')
      /\ query_calls s' = query_calls s ++ [Pinecone.Query vector 3 None true]
      /\ (model_calls s' = model_calls s
          \/ exists request, model_calls s' = model_calls s ++ [request])
      /\ upsert_calls s' = upsert_calls s
      /\ files s' = files s).
  { intros o. do 2 eexists. exists v. split; [reflexivity|]. simpl.
    rewrite Hq. auto. }
  destruct results as [|result results]; [apply Hdone|].
  destruct (format_context 0 (result :: results) [] []) as [[cps sources]|e];
    [|apply Hdone].
  destruct (gemini_model self); [|apply Hdone].
  do 2 eexists. exists v. split; [reflexivity|]. simpl.
  rewrite Hq, Hmodel. repeat split; eauto.
Qed.

(** X19: the [use_vision] flag has no effect on what [generate_response]
    returns nor on the state it leaves: the instruction it adds goes into a
    message that is not passed on. *)
Theorem generate_response_ignores_use_vision query s :
  generate_response env self query true s = generate_response env self query false s.
Proof.
  destruct (search_state env (vector_store self) query 3 None s)
    as (results & v & s0 & _ & Hsearch).
  now rewrite !(generate_response_cases _ _ _ _ _ _ _ Hsearch).
Qed.

End Responding.

(** ** Answering: what is made of the reply of the model *)

Section Replies.

Import QueryProcessor.

Variable env : Env.
Variable self : QueryProcessor.t.

Lemma lstrip_blank text : Forall (fun c => isspace c = true) text -> lstrip text = [].
Proof.
  induction 1 as [|c text Hc _ IH]; simpl; [reflexivity|]. now rewrite Hc.
Qed.

Lemma strip_blank text : Forall (fun c => isspace c = true) text -> strip text = [].
Proof. intros H. unfold strip, rstrip. now rewrite (lstrip_blank _ H). Qed.

Lemma is_prefix_lower p : forall text,
  is_prefix p text = true -> is_prefix (lower p) (lower text) = true.
Proof.
  induction p as [|a p IH]; intros [|b text]; simpl; try easy.
  destruct (Ascii.eqb a b) eqn:E; [|discriminate].
  apply Ascii.eqb_eq in E as ->. rewrite Ascii.eqb_refl. apply IH.
Qed.

Lemma contains_lower word : forall text,
  contains word text = true -> contains (lower word) (lower text) = true.
Proof.
  induction text as [|c text IH]; simpl.
  - apply (is_prefix_lower word []).
  - intros H. apply orb_true_iff in H as [H|H]; apply orb_true_iff.
    + left. apply (is_prefix_lower word (c :: text) H).
    + right. now apply IH.
Qed.

Section WithResults.

Variables (query : str) (use_vision : bool) (s s1 : State).
Variables (result : SearchResult.t) (results : list SearchResult.t).
Variables (context_parts : list str) (sources : list Source.t).
Variable model : GenerativeModel.

Hypothesis searched :
  VectorStore.search env (vector_store self) query 3 None s = (Ok (result :: results), s1).
Hypothesis formatted :
  format_context 0 (result :: results) [] [] = Ok (context_parts, sources).
Hypothesis has_model : gemini_model self = Some model.

Lemma generate_response_answer :
  generate_response env self query use_vision s
  = (Ok (Response.Make
           (answer_of (respond model s1 (model_request context_parts query)))
           sources (Some context_parts)),
     log_model_call (model_request context_parts query) s1).
Proof.
  rewrite (generate_response_cases env self _ _ _ _ _ searched).
  now rewrite formatted, has_model.
Qed.

(** X20: an empty reply of the model is not given as the answer: the
    response carries the sources and the context, and the answer is the
    apology followed by "Empty response from Gemini model". *)
Theorem generate_response_empty_reply :
  respond model s1 (model_request context_parts query) = Ok [] ->
  generate_response env self query use_vision s
  = (Ok (Response.Make
           (lit "I'm sorry, I encountered an error while generating a response. The error was: Empty response from Gemini model")
           sources (Some context_parts)),
     log_model_call (model_request context_parts query) s1).
Proof. intros H. rewrite generate_response_answer, H. reflexivity. Qed.

(** X21: a reply made of white space only passes the test for an empty
    reply and is then stripped: the answer returned is the empty string. *)
Theorem generate_response_blank_reply text :
  respond model s1 (model_request context_parts query) = Ok text ->
  text <> [] ->
  Forall (fun c => isspace c = true) text ->
  generate_response env self query use_vision s
  = (Ok (Response.Make [] sources (Some context_parts)),
     log_model_call (model_request context_parts query) s1).
Proof.
  intros H Hne Hblank. rewrite generate_response_answer, H.
  destruct text as [|c text]; [contradiction|].
  unfold answer_of. now rewrite (strip_blank _ Hblank).
Qed.

(** X22: when the model raises and the text of the error holds the word
    "quota" in any mix of upper and lower case, the answer is the fixed
    sentence about the quota, whatever else the error says, and the
    exception does not leave [generate_response]. *)
Theorem generate_response_quota e word :
  respond model s1 (model_request context_parts query) = Raise e ->
  lower word = lit "quota" ->
  contains word (exn_msg e) = true ->
  generate_response env self query use_vision s
  = (Ok (Response.Make
           (lit "I've reached my API quota limit. Please check your Google AI Studio account for usage limits.")
           sources (Some context_parts)),
     log_model_call (model_request context_parts query) s1).
Proof.
  intros H Hword Hin. rewrite generate_response_answer, H.
  unfold answer_of, error_answer. apply contains_lower in Hin.
  rewrite Hword in Hin. cbv zeta. now rewrite Hin.
Qed.

End WithResults.

End Replies.

(** ** Rendering a response *)

Section Rendering.

Import QueryProcessor.

Lemma format_source_lines formatted i source :
  format_source formatted i source = formatted ++ source_lines i source.
Proof.
  unfold format_source, source_lines.
  destruct (truthy (Source.has_images source)).
  - now rewrite <- !app_assoc.
  - now rewrite app_nil_r, <- !app_assoc.
Qed.

Lemma format_sources_lines sources : forall formatted i,
  format_sources formatted i sources
  = formatted ++ concat (imap (fun k => source_lines (i + Z.of_nat k)) sources).
Proof.
  induction sources as [|source sources IH]; intros formatted i;
    cbn [format_sources].
  - simpl. now rewrite app_nil_r.
  - rewrite IH, format_source_lines, imap_cons. cbn [concat].
    rewrite Z.add_0_r, <- app_assoc. do 3 f_equal.
    apply imap_ext. intros k x _. simpl. f_equal. lia.
Qed.

(** X23: [format_response] writes the answer and a blank line; with no
    source that is all, and otherwise a "Sources:" heading follows and then,
    for each source in order, numbered from 1, its page, its content and,
    when it has images, the line "(Contains visual content)". The context
    of the response is not used. *)
Theorem format_response_lines answer sources context :
  format_response (Response.Make answer sources context)
  = answer ++ nl ++ nl
    ++ match sources with
       | [] => []
       | _ :: _ => nl ++ lit "Sources:" ++ nl
                   ++ concat (imap (fun k => source_lines (1 + Z.of_nat k)) sources)
       end.
Proof.
  unfold format_response. simpl Response.sources. simpl Response.answer.
  destruct sources as [|source sources].
  - now rewrite app_nil_r.
  - rewrite format_sources_lines, <- !app_assoc. reflexivity.
Qed.

End Rendering.

(** ** The life of the index *)

Section Lifecycle.

Import IndexLifecycle.

Variable client : Client.
Variable config : Config.t.

Local Notation "'NAME'" := Config.INDEX_NAME.
Local Notation "'DIM'" := (Config.GEMINI_EMBEDDING_DIM config).

Lemma pbind_ask {A B} c (reply : list call -> result A) (k : A -> P B) l :
  pbind (ask c reply) k l
  = match reply l with
    | Ok a => k a (l ++ [c])
    | Raise e => Some (Raise e, l ++ [c])
    end.
Proof. unfold pbind, ask. now destruct (reply l). Qed.

Lemma pbind_tell {B} c reply (k : unit -> P B) l :
  pbind (tell c reply) k l
  = match reply l with
    | Some e => Some (Raise e, l ++ [c])
    | None => k tt (l ++ [c])
    end.
Proof. unfold pbind, tell. now destruct (reply l). Qed.

Lemma pbind_pret {A B} (a : A) (k : A -> P B) l : pbind (pret a) k l = k a l.
Proof. reflexivity. Qed.

Lemma pbind_assoc {A B D} (m : P A) (f : A -> P B) (k : B -> P D) l :
  pbind (pbind m f) k l = pbind m (fun a => pbind (f a) k) l.
Proof. unfold pbind. destruct (m l) as [[[a|e] l']|]; reflexivity. Qed.

Local Ltac flatten := repeat (rewrite <- app_assoc; cbn [app]).

Local Ltac listed H :=
  rewrite bool_decide_eq_true_2 by (apply list_elem_of_In; exact H).

Local Ltac unlisted H :=
  rewrite bool_decide_eq_false_2
    by (let Hin := fresh in intros Hin; apply H; apply list_elem_of_In; exact Hin).

(** X24: when the index is listed and its description has the configured
    dimension, or no dimension at all, it is reused: the calls made are the
    listing, the description and the opening of the index, with no
    deletion, no creation and no waiting, whatever the bound on the wait. *)
Theorem _get_or_create_index_reuses fuel l names info :
  list_indexes_reply client l = Ok names ->
  In NAME names ->
  describe_index_reply client (l ++ [ListIndexes]) NAME = Ok info ->
  (forall d, dimension info = Some d -> d = DIM) ->
  open_index_reply client (l ++ [ListIndexes; DescribeIndex NAME]) NAME = None ->
  _get_or_create_index client config fuel l
  = Some (Ok NAME, l ++ [ListIndexes; DescribeIndex NAME; OpenIndex NAME]).
Proof.
  intros Hlist Hin Hinfo Hdim Hopen.
  unfold _get_or_create_index. rewrite pbind_ask, Hlist. listed Hin.
  rewrite pbind_assoc, pbind_ask, Hinfo.
  assert (Hkeep : forall k : list str -> P str,
    pbind (match dimension info with
           | Some d =>
             if negb (d =? DIM)
             then pbind (tell (DeleteIndex NAME)
                           (fun l => delete_index_reply client l NAME))
                    (fun _ => pret (remove_first NAME names))
             else pret names
           | None => pret names
           end) k = k names).
  { intros k. destruct (dimension info) as [d|]; [|reflexivity].
    rewrite (Hdim d eq_refl), Z.eqb_refl. reflexivity. }
  rewrite Hkeep. listed Hin.
  rewrite pbind_pret, pbind_tell. flatten. rewrite Hopen. reflexivity.
Qed.

(** When the status is ready at the first look, the wait is one look. *)
Lemma wait_until_ready_at_once fuel l info :
  describe_index_reply client l NAME = Ok info ->
  ready info = true ->
  wait_until_ready client NAME (S fuel) l = Some (Ok tt, l ++ [DescribeIndex NAME]).
Proof.
  intros Hinfo Hready. simpl. unfold pbind, ask. now rewrite Hinfo, Hready.
Qed.

(** The wait and what follows it: when the first [k] looks find the index
    not ready and the next finds it ready, what follows the wait runs after
    [k] sleeps and [k + 1] looks, if more than [k] looks are allowed. *)
Lemma wait_until_ready_then {B} (f : unit -> P B) k : forall fuel l,
  ready_after client l k ->
  pbind (wait_until_ready client NAME fuel) f l
  = if (k <? fuel)%nat
    then f tt (l ++ waits NAME k ++ [DescribeIndex NAME])
    else None.
Proof.
  induction k as [|k IH]; intros fuel l [Hbusy (status & Hstatus & Hready)];
    (destruct fuel as [|fuel]; [reflexivity|]);
    cbn [wait_until_ready]; rewrite pbind_assoc, pbind_ask.
  - cbn [waits] in Hstatus. rewrite app_nil_r in Hstatus.
    rewrite Hstatus, Hready. reflexivity.
  - destruct (Hbusy 0%nat ltac:(lia)) as (first & Hfirst & Hnot).
    cbn [waits] in Hfirst. rewrite app_nil_r in Hfirst.
    rewrite Hfirst, Hnot, pbind_assoc, pbind_ask.
    rewrite (IH fuel ((l ++ [DescribeIndex NAME]) ++ [Sleep 1])).
    + change (S k <? S fuel)%nat with (k <? fuel)%nat.
      destruct (k <? fuel)%nat; [|reflexivity].
      cbn [waits]. f_equal. now rewrite <- !app_assoc.
    + split.
      * intros j Hj. destruct (Hbusy (S j) ltac:(lia)) as (i & Hi & Hb).
        exists i. split; [|exact Hb]. cbn [waits] in Hi. now rewrite <- !app_assoc.
      * exists status. split; [|exact Hready].
        cbn [waits] in Hstatus. now rewrite <- !app_assoc.
Qed.

(** X25: when the index is listed once with another dimension, it is
    deleted and created again with the configured dimension and the cosine
    metric, and then waited for: if its status is not ready at the first
    [k] looks and ready at the next, the index is opened after [k] sleeps,
    and not before. A wait that is allowed no more than [k] looks is cut
    short, and the index is not opened. *)
Theorem _get_or_create_index_recreates k fuel l names info d :
  list_indexes_reply client l = Ok names ->
  In NAME names ->
  ~ In NAME (remove_first NAME names) ->
  describe_index_reply client (l ++ [ListIndexes]) NAME = Ok info ->
  dimension info = Some d ->
  d <> DIM ->
  delete_index_reply client (l ++ [ListIndexes; DescribeIndex NAME]) NAME = None ->
  create_index_reply client (l ++ [ListIndexes; DescribeIndex NAME; DeleteIndex NAME])
    NAME DIM = None ->
  ready_after client (recreated config l) k ->
  open_index_reply client (recreated config l ++ waits NAME k ++ [DescribeIndex NAME])
    NAME = None ->
  _get_or_create_index client config fuel l
  = if (k <? fuel)%nat
    then Some (Ok NAME,
               recreated config l ++ waits NAME k ++ [DescribeIndex NAME; OpenIndex NAME])
    else None.
Proof.
  intros Hlist Hin Hout Hinfo Hdim Hne Hdelete Hcreate Hwait Hopen.
  unfold _get_or_create_index. rewrite pbind_ask, Hlist. listed Hin.
  rewrite pbind_assoc, pbind_ask, Hinfo, Hdim.
  assert (Hneq : negb (d =? DIM) = true) by (apply negb_true_iff, Z.eqb_neq, Hne).
  rewrite Hneq, pbind_assoc, pbind_tell. flatten. rewrite Hdelete, pbind_pret.
  unlisted Hout.
  rewrite pbind_assoc, pbind_tell. flatten. rewrite Hcreate.
  fold (create_call config). fold (recreated config l).
  rewrite (wait_until_ready_then _ k fuel _ Hwait).
  destruct (k <? fuel)%nat; [|reflexivity].
  rewrite pbind_tell, Hopen. unfold pret.
  now rewrite <- !app_assoc.
Qed.

(** X26: when the index is not listed, it is created with the configured
    dimension and the cosine metric, and then waited for: if its status is
    not ready at the first [k] looks and ready at the next, the index is
    opened after [k] sleeps, and not before. Nothing is described before
    the creation and nothing deleted. A wait that is allowed no more than
    [k] looks is cut short, and the index is not opened. *)
Theorem _get_or_create_index_creates k fuel l names :
  list_indexes_reply client l = Ok names ->
  ~ In NAME names ->
  create_index_reply client (l ++ [ListIndexes]) NAME DIM = None ->
  ready_after client (created config l) k ->
  open_index_reply client (created config l ++ waits NAME k ++ [DescribeIndex NAME])
    NAME = None ->
  _get_or_create_index client config fuel l
  = if (k <? fuel)%nat
    then Some (Ok NAME,
               created config l ++ waits NAME k ++ [DescribeIndex NAME; OpenIndex NAME])
    else None.
Proof.
  intros Hlist Hout Hcreate Hwait Hopen.
  unfold _get_or_create_index. rewrite pbind_ask, Hlist. unlisted Hout.
  rewrite pbind_pret. unlisted Hout.
  rewrite pbind_assoc, pbind_tell, Hcreate. fold (create_call config). flatten.
  fold (created config l).
  rewrite (wait_until_ready_then _ k fuel _ Hwait).
  destruct (k <? fuel)%nat; [|reflexivity].
  rewrite pbind_tell, Hopen. unfold pret.
  now rewrite <- !app_assoc.
Qed.

(** X27: when the creation of the index is refused, the exception leaves
    the call at once: the index is neither waited for nor opened. *)
Theorem _get_or_create_index_create_refused fuel l names e :
  list_indexes_reply client l = Ok names ->
  ~ In NAME names ->
  create_index_reply client (l ++ [ListIndexes]) NAME DIM = Some e ->
  _get_or_create_index client config fuel l
  = Some (Raise e, l ++ [ListIndexes; create_call config]).
Proof.
  intros Hlist Hout Hcreate.
  unfold _get_or_create_index. rewrite pbind_ask, Hlist. unlisted Hout.
  rewrite pbind_pret. unlisted Hout.
  rewrite pbind_assoc, pbind_tell, Hcreate. fold (create_call config). flatten.
  reflexivity.
Qed.

(** X28: the waiting loop sleeps once for every look that finds the index
    not ready. If the first [k] looks find it not ready and the next finds
    it ready, the loop ends after exactly [k] sleeps whenever it is allowed
    more than [k] looks, and is cut short otherwise. *)
Theorem wait_until_ready_sleeps k : forall fuel l,
  (forall j, (j < k)%nat ->
     exists info, describe_index_reply client (l ++ waits NAME j) NAME = Ok info
                  /\ ready info = false) ->
  (exists info, describe_index_reply client (l ++ waits NAME k) NAME = Ok info
                /\ ready info = true) ->
  wait_until_ready client NAME fuel l
  = if (k <? fuel)%nat
    then Some (Ok tt, l ++ waits NAME k ++ [DescribeIndex NAME])
    else None.
Proof.
  induction k as [|k IH]; intros fuel l Hnot Hready.
  - destruct Hready as (info & Hinfo & Hready). simpl in Hinfo.
    rewrite app_nil_r in Hinfo.
    destruct fuel as [|fuel]; [reflexivity|].
    now rewrite (wait_until_ready_at_once fuel _ _ Hinfo Hready).
  - destruct fuel as [|fuel]; [reflexivity|].
    destruct (Hnot 0%nat ltac:(lia)) as (info & Hinfo & Hbusy).
    simpl in Hinfo. rewrite app_nil_r in Hinfo.
    cbn [wait_until_ready]. unfold pbind at 1, ask at 1. rewrite Hinfo, Hbusy.
    unfold pbind at 1, ask at 1.
    rewrite (IH fuel ((l ++ [DescribeIndex NAME]) ++ [Sleep 1])).
    + change (S k <? S fuel)%nat with (k <? fuel)%nat.
      destruct (k <? fuel)%nat; [|reflexivity].
      simpl. now rewrite <- !app_assoc.
    + intros j Hj. destruct (Hnot (S j) ltac:(lia)) as (i & Hi & Hb).
      exists i. split; [|exact Hb]. simpl in Hi. now rewrite <- !app_assoc.
    + destruct Hready as (i & Hi & Hr). exists i. split; [|exact Hr].
      simpl in Hi. now rewrite <- !app_assoc.
Qed.

(** X29: [delete_all_vectors] never raises. It asks for the statistics of
    the index, and asks for the deletion exactly when the statistics came
    and count more than zero vectors; on an empty index, or when the
    statistics fail, nothing is deleted. *)
Theorem delete_all_vectors_calls l :
  exists l',
    delete_all_vectors client l = Some (Ok tt, l')
    /\ ((l' = l ++ [DescribeIndexStats; DeleteAll]
         /\ exists total, describe_index_stats_reply client l = Ok total /\ 0 < total)
        \/ (l' = l ++ [DescribeIndexStats]
            /\ forall total, describe_index_stats_reply client l = Ok total -> total <= 0)).
Proof.
  unfold delete_all_vectors, pbind, ask.
  destruct (describe_index_stats_reply client l) as [total|e] eqn:E.
  - destruct (Z.ltb_spec 0 total).
    + unfold tell. destruct (delete_all_reply client _);
        (eexists; split; [reflexivity|]); left;
        (split; [now rewrite <- app_assoc | eauto]).
    + unfold pret. eexists. split; [reflexivity|]. right.
      split; [reflexivity|]. intros t [= <-]. lia.
  - eexists. split; [reflexivity|]. right. split; [reflexivity|]. discriminate.
Qed.

End Lifecycle.

(** ** From a document to the index *)

Section Pipeline.

Variable env : Env.
Variable doc_processor : DocumentProcessor.t.
Variable vector_store : VectorStore.t.

Lemma _get_image_description_keeps_index image_path s :
  upsert_calls (snd (DocumentProcessor._get_image_description env doc_processor image_path s))
  = upsert_calls s.
Proof.
  unfold DocumentProcessor._get_image_description.
  destruct (DocumentProcessor.gemini_model doc_processor) as [model|]; [|reflexivity].
  unfold try_except, mbind, read_binary, generate_content, raise, ret.
  destruct (files s !! image_path) as [img|]; [|reflexivity].
  destruct (encode_jpeg env s img) as [data|e]; [|reflexivity].
  destruct (respond model s _) as [response_text|e]; [|reflexivity].
  now destruct (Nat.eqb (length response_text) 0).
Qed.

Lemma describe_image_keeps_index page_num descriptions img_index xref s :
  upsert_calls (snd (DocumentProcessor.describe_image env doc_processor page_num
                       descriptions img_index xref s))
  = upsert_calls s.
Proof.
  unfold DocumentProcessor.describe_image, try_except at 1, mbind at 1.
  destruct (extract_image env s xref) as [image_bytes|e]; [|reflexivity].
  unfold mbind at 1, write_binary.
  set (path := DocumentProcessor.image_path_for doc_processor page_num img_index).
  destruct (file_write env s path image_bytes); try reflexivity.
  pose proof (_get_image_description_keeps_index path
                (set_files (insert path image_bytes) s)) as Hkeep.
  unfold mbind at 1.
  destruct (DocumentProcessor._get_image_description env doc_processor path _)
    as [[d|e] s2]; simpl in Hkeep; [|exact Hkeep].
  unfold try_except, mbind, os_remove, ret.
  destruct (files s2 !! path); exact Hkeep.
Qed.

Lemma describe_images_keeps_index page_num image_list : forall descriptions img_index s,
  upsert_calls (snd (DocumentProcessor.describe_images env doc_processor page_num
                       descriptions img_index image_list s))
  = upsert_calls s.
Proof.
  induction image_list as [|xref rest IH]; intros descriptions img_index s; simpl;
    [reflexivity|].
  pose proof (describe_image_keeps_index page_num descriptions img_index xref s) as Hstep.
  unfold mbind.
  destruct (DocumentProcessor.describe_image env doc_processor page_num descriptions
              img_index xref s) as [[ds|e] s1]; simpl in Hstep; [|exact Hstep].
  now rewrite IH.
Qed.

Lemma process_pages_keeps_index pages : forall page_num processed s,
  upsert_calls (snd (DocumentProcessor.process_pages env doc_processor page_num pages
                       processed s))
  = upsert_calls s.
Proof.
  induction pages as [|page pages IH]; intros page_num processed s; simpl;
    [reflexivity|].
  assert (Hstep : upsert_calls
                    (snd (DocumentProcessor.process_page env doc_processor page_num page s))
                  = upsert_calls s).
  { unfold DocumentProcessor.process_page, mbind,
      DocumentProcessor._extract_and_describe_images.
    destruct (DocumentProcessor.get_images page) as [|xref rest]; [reflexivity|].
    pose proof (describe_images_keeps_index page_num (xref :: rest) [] 0 s) as H.
    destruct (DocumentProcessor.describe_images env doc_processor page_num [] 0
                (xref :: rest) s) as [[ds|e] s1]; exact H. }
  unfold mbind.
  destruct (DocumentProcessor.process_page env doc_processor page_num page s)
    as [[content|e] s1]; simpl in Hstep; [|exact Hstep].
  now rewrite IH.
Qed.

Lemma record_ids documents records :
  Forall2 (record_of env vector_store) documents records ->
  map Pinecone.id records = map (fun doc => str_of_int (Chunk.chunk_id doc)) documents.
Proof.
  induction 1 as [|doc v documents records (Hid & _) _ IH]; simpl; [reflexivity|].
  now rewrite Hid, IH.
Qed.

Lemma ids_by_position (chunks : list Chunk.t) :
  (forall k c, chunks !! k = Some c -> Chunk.chunk_id c = Z.of_nat k) ->
  map (fun doc => str_of_int (Chunk.chunk_id doc)) chunks
  = map (fun k : nat => str_of_int (Z.of_nat k)) (seq 0 (length chunks)).
Proof.
  intros Hids. apply list_eq. intros k.
  change (map ?f ?l) with (f <$> l). rewrite !list_lookup_fmap.
  destruct (chunks !! k) as [c|] eqn:E; simpl.
  - rewrite (lookup_seq_lt _ _ _ (lookup_lt_Some _ _ _ E)). simpl.
    now rewrite (Hids _ _ E).
  - rewrite lookup_seq_ge; [reflexivity|]. now apply lookup_ge_None.
Qed.

Hypothesis overlap_smaller :
  Config.CHUNK_OVERLAP (DocumentProcessor.config doc_processor)
  < Config.CHUNK_SIZE (DocumentProcessor.config doc_processor).
Hypothesis accepts : index_accepts (VectorStore.index vector_store).

(** X30: [process_document] on a document, with an overlap smaller than the
    chunk size and an index that takes every batch, returns; the records it
    sent to the index, read in order over the batches, have the ids "0",
    "1", "2", ... without a gap, and no batch has more than 100 records. *)
Theorem process_document_ids pages s :
  exists batches s',
    Main.process_document env doc_processor vector_store pages s = (Ok tt, s')
    /\ upsert_calls s' = upsert_calls s ++ batches
    /\ map Pinecone.id (concat batches)
       = map (fun k : nat => str_of_int (Z.of_nat k)) (seq 0 (length (concat batches)))
    /\ Forall (fun b => (length b <= 100)%nat) batches.
Proof.
  destruct (process_pages_spec env doc_processor pages 0 [] s)
    as (processed & s1 & Hpdf & _).
  pose proof (process_pages_keeps_index pages 0 [] s) as Hkeep.
  rewrite Hpdf in Hkeep. simpl in Hkeep.
  destruct (chunk_document_returns doc_processor processed ltac:(lia))
    as (chunks & Hchunks).
  assert (Hids : forall k c, chunks !! k = Some c -> Chunk.chunk_id c = Z.of_nat k).
  { unfold DocumentProcessor.chunk_document in Hchunks.
    destruct (DocumentProcessor.chunk_pages doc_processor ([], 0) processed)
      as [st|e] eqn:E; simpl in Hchunks; [|discriminate].
    injection Hchunks as <-.
    apply (chunk_pages_ids _ _ _ _ E); [reflexivity|].
    intros k c Hk. destruct k; discriminate. }
  destruct (upsert_loop_spec env vector_store 100 accepts chunks [] s1)
    as (full & records & vectors' & s2 & Hrun & Hups & Hcat & Hrecs & Hfull & Hp);
    [simpl; lia|].
  simpl in Hcat. subst records.
  assert (Hsent : map Pinecone.id (concat full ++ vectors')
                  = map (fun k : nat => str_of_int (Z.of_nat k))
                        (seq 0 (length (concat full ++ vectors')))).
  { rewrite (record_ids _ _ Hrecs), (ids_by_position _ Hids).
    now rewrite (Forall2_length _ _ _ Hrecs). }
  assert (Hsmall : Forall (fun b : list Pinecone.vector => (length b <= 100)%nat) full).
  { eapply Forall_impl; [exact Hfull|]. simpl. intros b Hb. lia. }
  unfold Main.process_document, DocumentProcessor.process_pdf, mbind at 1.
  simpl in Hpdf. rewrite Hpdf.
  unfold mbind at 1, lift. rewrite Hchunks.
  unfold VectorStore.upsert_documents, mbind. rewrite Hrun.
  destruct vectors' as [|v vectors'].
  - exists full, s2. unfold ret. rewrite app_nil_r in Hsent.
    rewrite Hups, Hkeep. auto.
  - exists (full ++ [v :: vectors']), (log_upsert_call (v :: vectors') s2).
    unfold index_upsert. rewrite accepts. simpl upsert_calls.
    rewrite Hups, Hkeep, <- app_assoc, concat_app. simpl concat. rewrite app_nil_r.
    repeat split; [exact Hsent|].
    apply Forall_app. split; [exact Hsmall|]. constructor; [|constructor].
    simpl in *. lia.
Qed.

End Pipeline.

(** ** The further properties on the sample inputs *)

Lemma chunk_document_ids_witness :
  exists chunks,
    DocumentProcessor.chunk_document default_processor [page_2500] = Ok chunks
    /\ forall k c, chunks !! k = Some c -> Chunk.chunk_id c = Z.of_nat k.
Proof.
  eexists. split; [vm_compute; reflexivity|].
  apply (chunk_document_ids default_processor [page_2500]).
  vm_compute. reflexivity.
Defined.

Lemma chunk_content_bounds_witness :
  0 < Config.CHUNK_SIZE (DocumentProcessor.config default_processor)
  /\ Config.CHUNK_OVERLAP (DocumentProcessor.config default_processor)
     < Config.CHUNK_SIZE (DocumentProcessor.config default_processor)
  /\ exists c,
       DocumentProcessor.chunk_document default_processor [blank_description_page]
       = Ok [c]
       /\ In c [c]
       /\ (1 <= length (Chunk.content c))%nat
       /\ Z.of_nat (length (Chunk.content c))
          <= Config.CHUNK_SIZE (DocumentProcessor.config default_processor).
Proof.
  split; [reflexivity|]. split; [reflexivity|].
  eexists. split; [vm_compute; reflexivity|]. split; [now left|].
  eapply (chunk_content_bounds default_processor [blank_description_page]);
    [reflexivity | reflexivity | vm_compute; reflexivity | now left].
Defined.

Lemma chunk_document_zero_step_witness :
  Config.CHUNK_SIZE (DocumentProcessor.config zero_step_processor)
  = Config.CHUNK_OVERLAP (DocumentProcessor.config zero_step_processor)
  /\ exists e,
       DocumentProcessor.chunk_document zero_step_processor [page_2500] = Raise e
       /\ exn_class e = "ValueError".
Proof.
  split; [reflexivity|].
  apply (chunk_document_zero_step zero_step_processor [page_2500]). reflexivity.
Defined.

Lemma chunk_document_negative_step_witness :
  Config.CHUNK_SIZE (DocumentProcessor.config negative_step_processor)
  < Config.CHUNK_OVERLAP (DocumentProcessor.config negative_step_processor)
  /\ DocumentProcessor.chunk_document negative_step_processor [page_2500] = Ok [].
Proof.
  split; [reflexivity|].
  apply (chunk_document_negative_step negative_step_processor [page_2500]). reflexivity.
Defined.

Lemma chunk_document_page_numbers_witness :
  Config.CHUNK_OVERLAP (DocumentProcessor.config default_processor)
  < Config.CHUNK_SIZE (DocumentProcessor.config default_processor)
  /\ exists chunks,
       DocumentProcessor.chunk_document default_processor [page_2500; blank_description_page]
       = Ok chunks
       /\ map Chunk.page_number chunks
          = flat_map (fun page =>
                        repeat (Page.page_number page)
                          (Z.to_nat (ceil_div (Z.of_nat (length (Page.full_content page)))
                             (Config.CHUNK_SIZE (DocumentProcessor.config default_processor)
                              - Config.CHUNK_OVERLAP
                                  (DocumentProcessor.config default_processor)))))
                     [page_2500; blank_description_page].
Proof.
  split; [reflexivity|].
  apply (chunk_document_page_numbers default_processor
           [page_2500; blank_description_page]).
  reflexivity.
Defined.

Lemma _extract_and_describe_images_cleans_up_witness :
  (forall s xref, exists image_bytes, extract_image working_env s xref = Ok image_bytes)
  /\ (forall s path image_bytes, file_write working_env s path image_bytes = Written)
  /\ exists descriptions s',
       DocumentProcessor._extract_and_describe_images working_env failing_vision_processor
         (DocumentProcessor.MkPdfPage (lit "x") [7; 8]) 0 World.initial
       = (Ok descriptions, s')
       /\ length descriptions = 2%nat
       /\ (forall p, In p (image_paths failing_vision_processor 0 0 2) ->
                     files s' !! p = None)
       /\ (forall p, ~ In p (image_paths failing_vision_processor 0 0 2) ->
                     files s' !! p = files World.initial !! p).
Proof.
  assert (Hextract : forall s xref,
            exists image_bytes, extract_image working_env s xref = Ok image_bytes)
    by (intros s xref; eexists; reflexivity).
  assert (Hwrite : forall s path image_bytes,
            file_write working_env s path image_bytes = Written)
    by (intros s path image_bytes; reflexivity).
  split; [exact Hextract|]. split; [exact Hwrite|].
  apply (_extract_and_describe_images_cleans_up working_env failing_vision_processor
           Hextract Hwrite (DocumentProcessor.MkPdfPage (lit "x") [7; 8]) 0 World.initial).
Defined.

Lemma process_pdf_text_only_witness :
  Forall (fun page => DocumentProcessor.get_images page = []) text_document
  /\ DocumentProcessor.process_pdf working_env failing_vision_processor text_document
       World.initial
     = (Ok (imap text_only_page text_document), World.initial).
Proof.
  assert (H : Forall (fun page => DocumentProcessor.get_images page = []) text_document)
    by (repeat constructor).
  split; [exact H|].
  apply (process_pdf_text_only working_env failing_vision_processor text_document
           World.initial H).
Defined.

Lemma upsert_documents_refused_witness :
  index_refuses (VectorStore.index (store_with failing_index)) connection_refused
  /\ three_chunks <> []
  /\ exists batch s',
       VectorStore.upsert_documents working_env (store_with failing_index)
         three_chunks 2 World.initial = (Raise connection_refused, s')
       /\ upsert_calls s' = upsert_calls World.initial ++ [batch]
       /\ batch <> []
       /\ Forall2 (record_of working_env (store_with failing_index))
            (take (length batch) three_chunks) batch
       /\ length (embed_calls s')
          = (length (embed_calls World.initial) + length batch)%nat.
Proof.
  assert (H : index_refuses (VectorStore.index (store_with failing_index))
                connection_refused) by (intros s vs; reflexivity).
  split; [exact H|]. split; [discriminate|].
  apply (upsert_documents_refused working_env (store_with failing_index) 2
           connection_refused H three_chunks World.initial).
  discriminate.
Defined.

Lemma upsert_documents_call_count_witness :
  index_accepts (VectorStore.index (store_with (serving_index [])))
  /\ exists s',
       VectorStore.upsert_documents working_env (store_with (serving_index []))
         three_chunks 2 World.initial = (Ok tt, s')
       /\ Z.of_nat (length (upsert_calls s'))
          = Z.of_nat (length (upsert_calls World.initial))
            + ceil_div (Z.of_nat (length three_chunks)) (Z.max 1 2).
Proof.
  assert (H : index_accepts (VectorStore.index (store_with (serving_index []))))
    by (intros s vs; reflexivity).
  split; [exact H|].
  apply (upsert_documents_call_count working_env (store_with (serving_index [])) 2 H
           three_chunks World.initial).
Defined.

Lemma search_results_of_matches_witness :
  exists embedding s1,
    VectorStore.get_embedding working_env (store_with (serving_index [chart_match]))
      chart_query World.initial = (Ok embedding, s1)
    /\ query_reply (VectorStore.index (store_with (serving_index [chart_match]))) s1
         (Pinecone.Query embedding 3 None true) = Ok [chart_match]
    /\ exists results s',
         VectorStore.search working_env (store_with (serving_index [chart_match]))
           chart_query 3 None World.initial = (Ok results, s')
         /\ Forall2 result_of [chart_match] results.
Proof.
  do 2 eexists. split; [reflexivity|]. split; [reflexivity|].
  eapply (search_results_of_matches working_env
            (store_with (serving_index [chart_match])) chart_query 3 None World.initial);
    reflexivity.
Defined.

Lemma generate_response_sources_witness :
  exists results s1 response s',
    VectorStore.search working_env (QueryProcessor.vector_store chart_processor)
      chart_query 3 None World.initial = (Ok results, s1)
    /\ QueryProcessor.generate_response working_env chart_processor chart_query false
         World.initial = (Ok response, s')
    /\ Forall2 source_of results (Response.sources response)
    /\ forall context_parts, Response.context response = Some context_parts ->
                             context_parts = imap context_part results.
Proof.
  do 4 eexists. split; [reflexivity|]. split; [vm_compute; reflexivity|].
  eapply (generate_response_sources working_env chart_processor chart_query false
            World.initial); [reflexivity | vm_compute; reflexivity].
Defined.

Lemma generate_response_type_error_witness :
  exists results s1,
    VectorStore.search working_env (store_with (serving_index [number_match]))
      chart_query 3 None World.initial = (Ok results, s1)
    /\ Exists content_not_string results
    /\ exists e,
         QueryProcessor.generate_response working_env
           (QueryProcessor.Make (store_with (serving_index [number_match]))
              (Some failing_model) Config.default)
           chart_query false World.initial = (Raise e, s1)
         /\ exn_class e = "TypeError"
         /\ model_calls s1 = model_calls World.initial.
Proof.
  assert (Hbad : Exists content_not_string [VectorStore.format_match number_match]).
  { left. intros text H. vm_compute in H. discriminate. }
  do 2 eexists. split; [reflexivity|]. split; [exact Hbad|].
  apply (generate_response_type_error working_env
           (QueryProcessor.Make (store_with (serving_index [number_match]))
              (Some failing_model) Config.default)
           chart_query false World.initial _ _ eq_refl Hbad).
Defined.

Lemma generate_response_empty_reply_witness :
  VectorStore.search working_env (QueryProcessor.vector_store (processor_replying []))
    chart_query 3 None World.initial
  = (Ok [VectorStore.format_match chart_match], chart_search_state)
  /\ QueryProcessor.format_context 0 [VectorStore.format_match chart_match] [] []
     = Ok (chart_context, chart_sources)
  /\ QueryProcessor.gemini_model (processor_replying []) = Some (replying_model [])
  /\ respond (replying_model []) chart_search_state
       (model_request chart_context chart_query) = Ok []
  /\ QueryProcessor.generate_response working_env (processor_replying []) chart_query
       false World.initial
     = (Ok (Response.Make
              (lit "I'm sorry, I encountered an error while generating a response. The error was: Empty response from Gemini model")
              chart_sources (Some chart_context)),
        log_model_call (model_request chart_context chart_query) chart_search_state).
Proof.
  split; [reflexivity|]. split; [reflexivity|]. split; [reflexivity|].
  split; [reflexivity|].
  apply (generate_response_empty_reply working_env (processor_replying []) chart_query
           false World.initial chart_search_state (VectorStore.format_match chart_match)
           [] chart_context chart_sources (replying_model []));
    reflexivity.
Defined.

Lemma generate_response_blank_reply_witness :
  VectorStore.search working_env
    (QueryProcessor.vector_store (processor_replying (lit "  ")))
    chart_query 3 None World.initial
  = (Ok [VectorStore.format_match chart_match], chart_search_state)
  /\ QueryProcessor.format_context 0 [VectorStore.format_match chart_match] [] []
     = Ok (chart_context, chart_sources)
  /\ QueryProcessor.gemini_model (processor_replying (lit "  "))
     = Some (replying_model (lit "  "))
  /\ respond (replying_model (lit "  ")) chart_search_state
       (model_request chart_context chart_query) = Ok (lit "  ")
  /\ lit "  " <> []
  /\ Forall (fun c => isspace c = true) (lit "  ")
  /\ QueryProcessor.generate_response working_env (processor_replying (lit "  "))
       chart_query false World.initial
     = (Ok (Response.Make [] chart_sources (Some chart_context)),
        log_model_call (model_request chart_context chart_query) chart_search_state).
Proof.
  assert (Hblank : Forall (fun c => isspace c = true) (lit "  "))
    by (repeat constructor).
  split; [reflexivity|]. split; [reflexivity|]. split; [reflexivity|].
  split; [reflexivity|]. split; [discriminate|]. split; [exact Hblank|].
  apply (generate_response_blank_reply working_env (processor_replying (lit "  "))
           chart_query false World.initial chart_search_state
           (VectorStore.format_match chart_match) [] chart_context chart_sources
           (replying_model (lit "  ")) eq_refl eq_refl eq_refl (lit "  ") eq_refl);
    [discriminate | exact Hblank].
Defined.

Lemma generate_response_quota_witness :
  VectorStore.search working_env (QueryProcessor.vector_store processor_failing)
    chart_query 3 None World.initial
  = (Ok [VectorStore.format_match chart_match], chart_search_state)
  /\ QueryProcessor.format_context 0 [VectorStore.format_match chart_match] [] []
     = Ok (chart_context, chart_sources)
  /\ QueryProcessor.gemini_model processor_failing = Some failing_model
  /\ respond failing_model chart_search_state (model_request chart_context chart_query)
     = Raise (MkExn "ResourceExhausted" (lit "429 Quota exceeded"))
  /\ lower (lit "Quota") = lit "quota"
  /\ contains (lit "Quota") (lit "429 Quota exceeded") = true
  /\ QueryProcessor.generate_response working_env processor_failing chart_query false
       World.initial
     = (Ok (Response.Make
              (lit "I've reached my API quota limit. Please check your Google AI Studio account for usage limits.")
              chart_sources (Some chart_context)),
        log_model_call (model_request chart_context chart_query) chart_search_state).
Proof.
  split; [reflexivity|]. split; [reflexivity|]. split; [reflexivity|].
  split; [reflexivity|]. split; [reflexivity|]. split; [reflexivity|].
  apply (generate_response_quota working_env processor_failing chart_query false
           World.initial chart_search_state (VectorStore.format_match chart_match) []
           chart_context chart_sources failing_model eq_refl eq_refl eq_refl
           (MkExn "ResourceExhausted" (lit "429 Quota exceeded")) (lit "Quota"));
    reflexivity.
Defined.

Lemma _get_or_create_index_reuses_witness :
  IndexLifecycle.list_indexes_reply client_with_index [] = Ok [Config.INDEX_NAME]
  /\ In Config.INDEX_NAME [Config.INDEX_NAME]
  /\ IndexLifecycle.describe_index_reply client_with_index ([] ++ [IndexLifecycle.ListIndexes])
       Config.INDEX_NAME = Ok (IndexLifecycle.Description (Some 768) true)
  /\ (forall d, IndexLifecycle.dimension (IndexLifecycle.Description (Some 768) true) = Some d ->
                d = Config.GEMINI_EMBEDDING_DIM Config.default)
  /\ IndexLifecycle.open_index_reply client_with_index
       ([] ++ [IndexLifecycle.ListIndexes; IndexLifecycle.DescribeIndex Config.INDEX_NAME])
       Config.INDEX_NAME = None
  /\ IndexLifecycle._get_or_create_index client_with_index Config.default 0 []
     = Some (Ok Config.INDEX_NAME,
             [] ++ [IndexLifecycle.ListIndexes;
                    IndexLifecycle.DescribeIndex Config.INDEX_NAME;
                    IndexLifecycle.OpenIndex Config.INDEX_NAME]).
Proof.
  assert (Hdim : forall d, IndexLifecycle.dimension (IndexLifecycle.Description (Some 768) true)
                       = Some d ->
                           d = Config.GEMINI_EMBEDDING_DIM Config.default)
    by (intros d [= <-]; reflexivity).
  split; [reflexivity|]. split; [now left|]. split; [reflexivity|].
  split; [exact Hdim|]. split; [reflexivity|].
  apply (_get_or_create_index_reuses client_with_index Config.default 0 [] [Config.INDEX_NAME]
          (IndexLifecycle.Description (Some 768) true));
    [reflexivity | now left | reflexivity | exact Hdim | reflexivity].
Defined.

Lemma _get_or_create_index_recreates_witness :
  IndexLifecycle.list_indexes_reply client_with_other_dimension [] = Ok [Config.INDEX_NAME]
  /\ In Config.INDEX_NAME [Config.INDEX_NAME]
  /\ ~ In Config.INDEX_NAME (IndexLifecycle.remove_first Config.INDEX_NAME [Config.INDEX_NAME])
  /\ IndexLifecycle.describe_index_reply client_with_other_dimension
       ([] ++ [IndexLifecycle.ListIndexes]) Config.INDEX_NAME
     = Ok (IndexLifecycle.Description (Some 3072) false)
  /\ 3072 <> Config.GEMINI_EMBEDDING_DIM Config.default
  /\ ready_after client_with_other_dimension (recreated Config.default []) 2
  /\ IndexLifecycle._get_or_create_index client_with_other_dimension Config.default 5 []
     = Some (Ok Config.INDEX_NAME,
             recreated Config.default [] ++ waits Config.INDEX_NAME 2
             ++ [IndexLifecycle.DescribeIndex Config.INDEX_NAME;
                 IndexLifecycle.OpenIndex Config.INDEX_NAME]).
Proof.
  assert (Hout : ~ In Config.INDEX_NAME
                     (IndexLifecycle.remove_first Config.INDEX_NAME [Config.INDEX_NAME]))
    by (vm_compute; intros []).
  assert (Hwait : ready_after client_with_other_dimension (recreated Config.default []) 2).
  { split; [|eexists; split; reflexivity].
    intros [|[|j]] Hj; [eexists; split; reflexivity .. | lia]. }
  split; [reflexivity|]. split; [now left|]. split; [exact Hout|].
  split; [reflexivity|]. split; [discriminate|]. split; [exact Hwait|].
  apply (_get_or_create_index_recreates client_with_other_dimension Config.default 2 5 []
           [Config.INDEX_NAME] (IndexLifecycle.Description (Some 3072) false) 3072);
    try reflexivity; [now left | exact Hout | discriminate | exact Hwait].
Defined.

Lemma _get_or_create_index_creates_witness :
  IndexLifecycle.list_indexes_reply client_slow [] = Ok []
  /\ ~ In Config.INDEX_NAME []
  /\ IndexLifecycle.create_index_reply client_slow ([] ++ [IndexLifecycle.ListIndexes])
       Config.INDEX_NAME (Config.GEMINI_EMBEDDING_DIM Config.default) = None
  /\ ready_after client_slow (created Config.default []) 2
  /\ IndexLifecycle._get_or_create_index client_slow Config.default 5 []
     = Some (Ok Config.INDEX_NAME,
             created Config.default [] ++ waits Config.INDEX_NAME 2
             ++ [IndexLifecycle.DescribeIndex Config.INDEX_NAME;
                 IndexLifecycle.OpenIndex Config.INDEX_NAME]).
Proof.
  assert (Hwait : ready_after client_slow (created Config.default []) 2).
  { split; [|eexists; split; reflexivity].
    intros [|[|j]] Hj; [eexists; split; reflexivity .. | lia]. }
  split; [reflexivity|]. split; [intros []|]. split; [reflexivity|].
  split; [exact Hwait|].
  apply (_get_or_create_index_creates client_slow Config.default 2 5 [] []);
    try reflexivity; [intros [] | exact Hwait].
Defined.

Lemma _get_or_create_index_create_refused_witness :
  IndexLifecycle.list_indexes_reply client_refusing_creation [] = Ok []
  /\ ~ In Config.INDEX_NAME []
  /\ IndexLifecycle.create_index_reply client_refusing_creation ([] ++ [IndexLifecycle.ListIndexes])
      Config.INDEX_NAME
       (Config.GEMINI_EMBEDDING_DIM Config.default) = Some connection_refused
  /\ IndexLifecycle._get_or_create_index client_refusing_creation Config.default 5 []
     = Some (Raise connection_refused,
             [] ++ [IndexLifecycle.ListIndexes; create_call Config.default]).
Proof.
  split; [reflexivity|]. split; [intros []|]. split; [reflexivity|].
  apply (_get_or_create_index_create_refused client_refusing_creation Config.default 5
          [] []
           connection_refused);
    try reflexivity. intros [].
Defined.

Lemma wait_until_ready_sleeps_witness :
  (forall j, (j < 2)%nat ->
     exists info, IndexLifecycle.describe_index_reply client_slow ([] ++ waits Config.INDEX_NAME j)
                  Config.INDEX_NAME
                  = Ok info
                  /\ IndexLifecycle.ready info = false)
  /\ (exists info, IndexLifecycle.describe_index_reply client_slow ([] ++ waits Config.INDEX_NAME 2)
                   Config.INDEX_NAME
                   = Ok info
                   /\ IndexLifecycle.ready info = true)
  /\ IndexLifecycle.wait_until_ready client_slow Config.INDEX_NAME 5 []
     = if (2 <? 5)%nat
       then Some (Ok tt, [] ++ waits Config.INDEX_NAME 2
                        ++ [IndexLifecycle.DescribeIndex Config.INDEX_NAME])
       else None.
Proof.
  assert (Hbusy : forall j, (j < 2)%nat ->
            exists info,
              IndexLifecycle.describe_index_reply client_slow ([] ++ waits Config.INDEX_NAME j)
                Config.INDEX_NAME
              = Ok info
              /\ IndexLifecycle.ready info = false).
  { intros [|[|j]] Hj; [eexists; split; reflexivity .. | lia]. }
  assert (Hready : exists info,
            IndexLifecycle.describe_index_reply client_slow ([] ++ waits Config.INDEX_NAME 2) Config.INDEX_NAME
            = Ok info
            /\ IndexLifecycle.ready info = true)
    by (eexists; split; reflexivity).
  split; [exact Hbusy|]. split; [exact Hready|].
  apply (wait_until_ready_sleeps client_slow 2 5 [] Hbusy Hready).
Defined.

Lemma process_document_ids_witness :
  Config.CHUNK_OVERLAP (DocumentProcessor.config default_processor)
  < Config.CHUNK_SIZE (DocumentProcessor.config default_processor)
  /\ index_accepts (VectorStore.index (store_with (serving_index [])))
  /\ exists batches s',
       Main.process_document working_env default_processor
         (store_with (serving_index [])) text_document World.initial = (Ok tt, s')
       /\ upsert_calls s' = upsert_calls World.initial ++ batches
       /\ map Pinecone.id (concat batches)
          = map (fun k : nat => str_of_int (Z.of_nat k)) (seq 0 (length (concat batches)))
       /\ Forall (fun b => (length b <= 100)%nat) batches.
Proof.
  assert (H : index_accepts (VectorStore.index (store_with (serving_index []))))
    by (intros s vs; reflexivity).
  split; [reflexivity|]. split; [exact H|].
  apply (process_document_ids working_env default_processor
           (store_with (serving_index [])) eq_refl H text_document World.initial).
Defined.
